(** * A custom AWS Lambda runtime for TypeScript handlers

    Shallow embedding of [src/runtime-layer/helpers.ts] and
    [src/runtime-layer/runtime.ts]: the transport helpers, the handler
    loader, the context builder and the runtime loop, followed by the
    properties of the runtime's contract with the control plane. *)

From Stdlib Require Import ZArith Lia Ascii String.
From stdpp Require Import base strings list gmap.

Local Open Scope Z_scope.

(** ** JavaScript values used by the runtime *)

Module Js.

(** [String.prototype.split] with a one-character separator: the pieces
    between the occurrences of [sep], empty pieces included; the empty
    string splits into one empty piece. *)
Fixpoint split (sep : ascii) (s : string) : list string :=
  match s with
  | EmptyString => [EmptyString]
  | String c rest =>
      if Ascii.eqb c sep then EmptyString :: split sep rest
      else match split sep rest with
           | [] => [String c EmptyString]
           | piece :: pieces => String c piece :: pieces
           end
  end.

(** [Array.prototype.join] with a one-character separator. *)
Definition join (sep : ascii) (pieces : list string) : string :=
  String.concat (String sep EmptyString) pieces.

(** Number of occurrences of a character. *)
Fixpoint occurrences (c : ascii) (s : string) : nat :=
  match s with
  | EmptyString => O
  | String d rest => (if Ascii.eqb d c then 1 else 0)%nat + occurrences c rest
  end.

(** Truthiness of a string: every string but the empty one. *)
Definition truthy (s : string) : bool := negb (String.eqb s "").

(** Truthiness of a value that is a string or [undefined]. *)
Definition truthy_opt (v : option string) : bool :=
  match v with Some s => truthy s | None => false end.

(** [a || ''] on a value that is a string or [undefined]. *)
Definition or_empty (v : option string) : string :=
  match v with Some s => if truthy s then s else "" | None => "" end.

(** A string or [undefined] inside a template literal. *)
Definition interpolate (v : option string) : string :=
  match v with Some s => s | None => "undefined" end.

(** The [Error] objects of the host: [name], [message] and the optional
    [stack] text. *)
Record Error := mkError {
  name : string;
  message : string;
  stack : option string
}.

(** Numbers, as far as the runtime computes with them: integers (epoch
    milliseconds and their differences, which doubles represent exactly)
    and [NaN]. *)
Inductive number :=
| Num (z : Z)
| NaN.

Definition sub (a b : number) : number :=
  match a, b with
  | Num x, Num y => Num (x - y)
  | _, _ => NaN
  end.

(** [a >= b] and [a <= b]; a comparison with [NaN] is false. *)
Definition geb (a b : number) : bool :=
  match a, b with Num x, Num y => y <=? x | _, _ => false end.
Definition leb (a b : number) : bool :=
  match a, b with Num x, Num y => x <=? y | _, _ => false end.
Definition ltb (a b : number) : bool :=
  match a, b with Num x, Num y => x <? y | _, _ => false end.

(** ASCII lower-casing, as the host applies it to header names. *)
Definition lower_ascii (c : ascii) : ascii :=
  let n := nat_of_ascii c in
  if (65 <=? n)%nat && (n <=? 90)%nat then ascii_of_nat (n + 32) else c.

Fixpoint toLowerCase (s : string) : string :=
  match s with
  | EmptyString => EmptyString
  | String c rest => String (lower_ascii c) (toLowerCase rest)
  end.

End Js.

Definition newline : ascii := "010"%char.
Definition dot : ascii := "."%char.

(** ** helpers.ts *)

(** [IncomingHttpHeaders]: the header object of a response. *)
Abbreviation IncomingHttpHeaders := (gmap string string).

(** [IRequestResult]; [statusCode] is optional, [None] is [undefined]. *)
Record IRequestResult := mkRequestResult {
  statusCode : option Z;
  headers : IncomingHttpHeaders;
  body : string
}.

(** A number or [undefined] used as an operand of a comparison. *)
Definition toNumber (v : option Z) : Js.number :=
  match v with Some z => Js.Num z | None => Js.NaN end.

(** [isResponseOk]: [statusCode >= 200 || statusCode <= 300]. *)
Definition isResponseOk (response : IRequestResult) : bool :=
  Js.geb (toNumber (statusCode response)) (Js.Num 200)
  || Js.leb (toNumber (statusCode response)) (Js.Num 300).

(** [RequestOptions], as far as the helpers set them; [{}] is [no_options]. *)
Record RequestOptions := mkOptions {
  method : option string;
  requestHeaders : option (gmap string string)
}.

Definition no_options : RequestOptions := mkOptions None None.

(** What [http.request], [req.write] and [req.end] put on the wire: the URL,
    the options merged into the request and the payload written, if any. *)
Record ClientRequest := mkRequest {
  url : string;
  options : RequestOptions;
  written : option string
}.

(** The answer of the control plane to one request, as the host delivers it:
    the status, the header lines with their names as sent, and the chunks of
    the body. *)
Record IncomingMessage := mkMessage {
  res_statusCode : option Z;
  rawHeaders : list (string * string);
  chunks : list string
}.

(** [res.headers]: the host lower-cases the header names and joins the
    values of a repeated name with a comma and a space. *)
Definition add_header (m : IncomingHttpHeaders) (line : string * string)
  : IncomingHttpHeaders :=
  let key := Js.toLowerCase line.1 in
  <[key := match m !! key with
           | Some value => value +:+ ", " +:+ line.2
           | None => line.2
           end]> m.

Definition res_headers (res : IncomingMessage) : IncomingHttpHeaders :=
  foldl add_header ∅ (rawHeaders res).

(** What becomes of a request: ['end'] after the whole answer, ['error'] on
    the request or the response, or a throw of [http.request] itself, which
    does not take the protocol of the URL, before anything is sent. *)
Inductive Settlement :=
| Answers (res : IncomingMessage)
| Fails (e : Js.Error)
| Refuses (e : Js.Error).

(** The third argument of [request] and [send], typed [any]: [undefined] or
    a chunk that [req.write] takes (a string, or a buffer by its bytes), or
    a value that it does not take (an object, a number, a boolean, [null]),
    of which only the truthiness matters. *)
Inductive Payload :=
| Chunk (text : option string)
| Unwritable (truthy : bool).

(** A promise, by its state when the program looks at it. *)
Inductive Promise (A : Type) :=
| Fulfilled (a : A)
| Rejected (e : Js.Error)
| Pending.
Arguments Fulfilled {A} a.
Arguments Rejected {A} e.
Arguments Pending {A}.

(** A computation runs on the world and completes normally, throws, stays
    suspended at an [await] whose promise has not settled, or ends the
    process. [OutOfFuel] is the bound of the loop below; [while_true] never
    produces it (lemma [while_true_completes]). *)
Inductive Completion (A : Type) :=
| Normal (a : A)
| Throw (e : Js.Error)
| Suspended
| Exited
| OutOfFuel.
Arguments Normal {A} a.
Arguments Throw {A} e.
Arguments Suspended {A}.
Arguments Exited {A}.
Arguments OutOfFuel {A}.

(** ** runtime.ts: data *)

Record IAWSLambdaError := mkLambdaError {
  errorMessage : string;
  errorType : string;
  stackTrace : list string
}.

(** The built-ins of the host that the runtime calls and that this
    development leaves abstract. *)
Class Host := {
  (** a decoded JSON value, [unknown] to the runtime *)
  unknown : Type;
  (** [JSON.parse]; the left summand is the [SyntaxError] it throws *)
  JSON_parse : string -> Js.Error + unknown;
  (** [JSON.stringify] of an error report *)
  JSON_stringify : IAWSLambdaError -> string;
  (** [join] of the [path] module *)
  path_join : string -> string -> string;
  (** the [stack] that [new Error(message)] captures *)
  captureStack : string -> option string;
  (** unary [+] on a header value: a string or [undefined] *)
  unary_plus : option string -> Js.number;
  (** the [TypeError] of reading a property of [null] or [undefined] *)
  nullish_read : Js.Error;
  (** the [TypeError] of [req.write] on a chunk that is neither a string
      nor a buffer *)
  invalid_chunk : Js.Error
}.

Section Runtime.

Context {host : Host}.

(** [getRemainingTimeInMillis] reads the clock at each call: it is a function
    of the reading of [Date.now()]. *)
Record IAWSLambdaContext := mkContext {
  awsRequestId : option string;
  invokedFunctionArn : option string;
  logGroupName : string;
  logStreamName : string;
  functionName : string;
  functionVersion : string;
  memoryLimitInMB : string;
  clientContext : option unknown;
  identity : option unknown;
  getRemainingTimeInMillis : Z -> Js.number
}.

(** What awaiting the handler's call gives. The result is typed [any]: it
    is [undefined] or a chunk that [req.write] takes, a string or the bytes
    of a buffer ([Returns], [None] is [undefined]), or a value that
    [req.write] does not take ([ReturnsUnwritable]). What is thrown is
    typed [any] as well: an [Error] object ([Throws]); [null] or
    [undefined], as a promise rejected without a reason gives
    ([ThrowsNullish]); or any other value ([ThrowsOther]), of which the
    runtime only evaluates [JSON.stringify(createError(value))]: that
    throws, or gives the text of a report. The promise of the handler may
    also never settle. *)
Inductive HandlerOutcome :=
| Returns (result : option string)
| ReturnsUnwritable (truthy : bool)
| Throws (e : Js.Error)
| ThrowsNullish
| ThrowsOther (report : Js.Error + string)
| NeverSettles.

(** The value bound by [catch (e)] around the handler's call. *)
Inductive Thrown :=
| ErrorObject (e : Js.Error)
| Nullish
| OtherValue (report : Js.Error + string).

(** A handler, by the outcome of its call on an event and a context. What
    a handler does to the process besides, such as ending it, is not part
    of the model. *)
Definition Handler : Type := unknown -> IAWSLambdaContext -> HandlerOutcome.

(** A loaded module: its exports by name; [None] is a missing or falsy
    export. *)
Definition Module : Type := string -> option Handler.

(** [process.env], destructured once when the runtime is loaded. The
    variables the source asserts with [!] are strings; the base URL is used
    unasserted inside template literals. *)
Record ProcessEnv := mkEnv {
  AWS_LAMBDA_FUNCTION_NAME : string;
  AWS_LAMBDA_FUNCTION_VERSION : string;
  AWS_LAMBDA_FUNCTION_MEMORY_SIZE : string;
  AWS_LAMBDA_LOG_GROUP_NAME : string;
  AWS_LAMBDA_LOG_STREAM_NAME : string;
  LAMBDA_TASK_ROOT : string;
  _HANDLER : string;
  AWS_LAMBDA_RUNTIME_API : option string
}.

(** The state of the process and of what surrounds it. *)
Record World := mkWorld {
  (** [process.env._X_AMZN_TRACE_ID] *)
  _X_AMZN_TRACE_ID : option string;
  (** what [import()] of a path settles to: the failure, or the module
      ([None]: a falsy value) *)
  modules : string -> Js.Error + option Module;
  (** the requests issued so far, oldest first: written and ended by the
      program *)
  issued : list ClientRequest;
  (** how the requests still to come settle, in the order of their issue *)
  controlPlane : list Settlement;
  (** the lines written by [console.error] *)
  stderr : list string;
  (** the status given to [process.exit]; [None] while none was given *)
  exitCode : option Z;
  (** the rejections of promises that nothing awaits *)
  unhandledRejections : list Js.Error;
  (** the requests issued since the program last waited: the host sends
      them when the program gives the control back, at an [await], and
      never when the process ends before that *)
  undelivered : list ClientRequest
}.

(** ** Effects *)

Definition Run (A : Type) : Type := World -> Completion A * World.

Definition ret {A} (a : A) : Run A := fun w => (Normal a, w).

Definition throw {A} (e : Js.Error) : Run A := fun w => (Throw e, w).

Definition bind {A B} (m : Run A) (k : A -> Run B) : Run B :=
  fun w =>
    match m w with
    | (Normal a, w') => k a w'
    | (Throw e, w') => (Throw e, w')
    | (Suspended, w') => (Suspended, w')
    | (Exited, w') => (Exited, w')
    | (OutOfFuel, w') => (OutOfFuel, w')
    end.

Local Notation "'do' x <- m ; k" := (bind m (fun x => k))
  (at level 10, x name, m at level 100, k at level 200).
Local Notation "'do' ' p <- m ; k" :=
  (bind m (fun x => match x with p => k end))
  (at level 10, p pattern, m at level 100, k at level 200).

(** The [try] block of a [try]/[catch]: what was thrown, or the value. *)
Definition attempt {A} (m : Run A) : Run (Js.Error + A) :=
  fun w =>
    match m w with
    | (Normal a, w') => (Normal (inr a), w')
    | (Throw e, w') => (Normal (inl e), w')
    | (Suspended, w') => (Suspended, w')
    | (Exited, w') => (Exited, w')
    | (OutOfFuel, w') => (OutOfFuel, w')
    end.

(** The updates of the world. *)
Definition with_trace_id (value : string) (w : World) : World :=
  mkWorld (Some value) (modules w) (issued w) (controlPlane w) (stderr w)
          (exitCode w) (unhandledRejections w) (undelivered w).

(** A request issued and not yet sent. *)
Definition with_queued (req : ClientRequest) (w : World) : World :=
  mkWorld (_X_AMZN_TRACE_ID w) (modules w) (issued w ++ [req])
          (tail (controlPlane w)) (stderr w) (exitCode w)
          (unhandledRejections w) (undelivered w ++ [req]).

(** The host sends what was issued. *)
Definition with_delivery (w : World) : World :=
  mkWorld (_X_AMZN_TRACE_ID w) (modules w) (issued w) (controlPlane w)
          (stderr w) (exitCode w) (unhandledRejections w) [].

(** A request issued and sent, with all that was issued before it. *)
Definition with_request (req : ClientRequest) (w : World) : World :=
  mkWorld (_X_AMZN_TRACE_ID w) (modules w) (issued w ++ [req])
          (tail (controlPlane w)) (stderr w) (exitCode w)
          (unhandledRejections w) [].

(** A request that [http.request] refused: nothing is issued. *)
Definition with_refusal (w : World) : World :=
  mkWorld (_X_AMZN_TRACE_ID w) (modules w) (issued w)
          (tail (controlPlane w)) (stderr w) (exitCode w)
          (unhandledRejections w) (undelivered w).

Definition with_line (line : string) (w : World) : World :=
  mkWorld (_X_AMZN_TRACE_ID w) (modules w) (issued w) (controlPlane w)
          (stderr w ++ [line]) (exitCode w) (unhandledRejections w)
          (undelivered w).

Definition with_exit (code : Z) (w : World) : World :=
  mkWorld (_X_AMZN_TRACE_ID w) (modules w) (issued w) (controlPlane w)
          (stderr w) (Some code) (unhandledRejections w) (undelivered w).

Definition with_unhandled {A} (p : Promise A) (w : World) : World :=
  match p with
  | Rejected e =>
      mkWorld (_X_AMZN_TRACE_ID w) (modules w) (issued w) (controlPlane w)
              (stderr w) (exitCode w) (unhandledRejections w ++ [e])
              (undelivered w)
  | _ => w
  end.

(** The requests that have reached the control plane. *)
Definition delivered (w : World) : list ClientRequest :=
  take (length (issued w) - length (undelivered w)) (issued w).

(** [await p]: the program gives the control back to the host, which sends
    the requests issued, and goes on when the promise has settled. *)
Definition await {A} (p : Promise A) : Run A :=
  fun w =>
    (match p with
     | Fulfilled a => Normal a
     | Rejected e => Throw e
     | Pending => Suspended
     end, with_delivery w).

(** An expression statement whose promise nothing awaits: its rejection
    reaches no [catch] of the program. *)
Definition discard {A} (p : Promise A) : Run unit :=
  fun w => (Normal tt, with_unhandled p w).

(** [console.error(line)]. *)
Definition console_error (line : string) : Run unit :=
  fun w => (Normal tt, with_line line w).

(** [process.exit(code)]: the process ends there, in the turn that calls
    it; the host gets no control back, and the requests still [undelivered]
    are never sent. *)
Definition process_exit {A} (code : Z) : Run A :=
  fun w => (Exited, with_exit code w).

(** [process.env._X_AMZN_TRACE_ID = value]: the environment keeps the value
    converted to a string. *)
Definition set_trace_id (value : option string) : Run unit :=
  fun w => (Normal tt, with_trace_id (Js.interpolate value) w).

(** [await import(path)]. *)
Definition import (path : string) : Run (option Module) :=
  fun w =>
    match modules w path with
    | inl e => (Throw e, w)
    | inr m => (Normal m, w)
    end.

(** [JSON.parse(text)]. *)
Definition parse (text : string) : Run unknown :=
  match JSON_parse text with
  | inl e => throw e
  | inr v => ret v
  end.

(** [new Error(message)]. *)
Definition new_Error (message : string) : Js.Error :=
  Js.mkError "Error" message (captureStack message).

(** ** helpers.ts: the transport *)

(** The payload that [request] writes: [if (payload) req.write(payload)]. *)
Definition payload_written (payload : option string) : option string :=
  if Js.truthy_opt payload then payload else None.

(** The value a request resolves with: the status, the host's header object
    and the chunks concatenated. *)
Definition resolved (res : IncomingMessage) : IRequestResult :=
  mkRequestResult (res_statusCode res) (res_headers res)
                  (String.concat "" (chunks res)).

(** The promise of a request that was issued, by what becomes of the
    request; [None]: nothing yet. *)
Definition settle (s : option Settlement) : Promise IRequestResult :=
  match s with
  | Some (Answers res) => Fulfilled (resolved res)
  | Some (Fails e) => Rejected e
  | Some (Refuses e) => Rejected e
  | None => Pending
  end.

(** [http.request] throws on a URL whose protocol it does not support. The
    protocol is read at the front of the URL, and every URL of the runtime
    starts with the same [AWS_LAMBDA_RUNTIME_API]: the host refuses all the
    requests of a run or none, and the runtime ends the process at the
    first request that is refused. So [Refuses] stands for the throw as
    long as no request has been issued; once one has, it is one more
    failure of the transport. *)
Definition refusal (w : World) : option Js.Error :=
  match issued w, head (controlPlane w) with
  | [], Some (Refuses e) => Some e
  | _, _ => None
  end.

(** What [if (payload) req.write(payload)] writes when it does not throw. *)
Definition chunk_written (payload : Payload) : option string :=
  match payload with
  | Chunk text => payload_written text
  | Unwritable _ => None
  end.

(** [request]: the executor of the promise runs at once. When
    [http.request] throws, or [req.write] throws on a truthy payload that
    it does not take, the promise is rejected with what was thrown and no
    request is issued: [req.end()] is not reached. Otherwise the request is
    issued, with the payload written when it is truthy, and its promise
    settles as the control plane decides. *)
Definition request (url : string) (options : RequestOptions)
    (payload : Payload) : Run (Promise IRequestResult) :=
  fun w =>
    match refusal w with
    | Some e => (Normal (Rejected e), with_refusal w)
    | None =>
        match payload with
        | Unwritable true => (Normal (Rejected invalid_chunk), w)
        | _ =>
            (Normal (settle (head (controlPlane w))),
             with_queued (mkRequest url options (chunk_written payload)) w)
        end
    end.

Definition load (url : string) (options : RequestOptions)
  : Run (Promise IRequestResult) :=
  let options := mkOptions (Some "GET") (requestHeaders options) in
  request url options (Chunk None).

Definition send (url : string) (options : RequestOptions)
    (payload : Payload) : Run (Promise IRequestResult) :=
  let options := mkOptions (Some "POST") (requestHeaders options) in
  let options :=
    mkOptions (method options) (Some (default ∅ (requestHeaders options))) in
  let options :=
    mkOptions (method options)
      (Some (<["Content-Type" := "application/json"]>
               (default ∅ (requestHeaders options)))) in
  request url options payload.

(** ** runtime.ts *)

Variable env : ProcessEnv.

Definition API_VERSION : string := "/2018-06-01".

Definition getNextInvocationUrl : string :=
  Js.interpolate (AWS_LAMBDA_RUNTIME_API env) +:+ "/" +:+ API_VERSION
  +:+ "/runtime/invocation/next".

Definition getInvocationResponseUrl (requestId : option string) : string :=
  Js.interpolate (AWS_LAMBDA_RUNTIME_API env) +:+ "/" +:+ API_VERSION
  +:+ "/runtime/invocation/" +:+ Js.interpolate requestId +:+ "/response".

Definition getInvocationErrorUrl (requestId : option string) : string :=
  Js.interpolate (AWS_LAMBDA_RUNTIME_API env) +:+ "/" +:+ API_VERSION
  +:+ "/runtime/invocation/" +:+ Js.interpolate requestId +:+ "/error".

Definition getInitErrorUrl : string :=
  Js.interpolate (AWS_LAMBDA_RUNTIME_API env) +:+ "/" +:+ API_VERSION
  +:+ "/runtime/invocation/init/error".

Definition createError (err : Js.Error) : IAWSLambdaError :=
  {| errorType := Js.name err;
     errorMessage := Js.message err;
     stackTrace := Js.split newline (Js.or_empty (Js.stack err)) |}.

(** [const [handlerPath, handlerName] = handler.split('.')]: the first two
    pieces of the split are bound, [undefined] when the split has no such
    piece; further pieces are dropped. *)
Definition handlerPath (handler : string) : option string :=
  Js.split dot handler !! 0%nat.

Definition handlerName (handler : string) : option string :=
  Js.split dot handler !! 1%nat.

(** [!handlerPath || !handlerName]. *)
Definition invalid_handler (handler : string) : bool :=
  negb (Js.truthy_opt (handlerPath handler))
  || negb (Js.truthy_opt (handlerName handler)).

(** Past the check both pieces are strings. *)
Definition getLambdaHandler (root handler : string) : Run Handler :=
  if invalid_handler handler
  then throw (new_Error ("Invalid handler: " +:+ handler))
  else
    do handlerModule <-
      import (path_join root (Js.interpolate (handlerPath handler)));
    match handlerModule with
    | None => throw (new_Error "Handler module is empty!")
    | Some exports =>
        match exports (Js.interpolate (handlerName handler)) with
        | None => throw (new_Error "Handler function not found!")
        | Some exported => ret exported
        end
    end.

Definition with_clientContext (value : unknown) (c : IAWSLambdaContext)
  : IAWSLambdaContext :=
  mkContext (awsRequestId c) (invokedFunctionArn c) (logGroupName c)
    (logStreamName c) (functionName c) (functionVersion c)
    (memoryLimitInMB c) (Some value) (identity c)
    (getRemainingTimeInMillis c).

Definition with_identity (value : unknown) (c : IAWSLambdaContext)
  : IAWSLambdaContext :=
  mkContext (awsRequestId c) (invokedFunctionArn c) (logGroupName c)
    (logStreamName c) (functionName c) (functionVersion c)
    (memoryLimitInMB c) (clientContext c) (Some value)
    (getRemainingTimeInMillis c).

(** The context before the optional headers are looked at. *)
Definition base_context (data : IRequestResult) : IAWSLambdaContext :=
  let deadline := unary_plus (headers data !! "lambda-runtime-deadline-ms") in
  {| awsRequestId := headers data !! "lambda-runtime-aws-request-id";
     invokedFunctionArn := headers data !! "lambda-runtime-invoked-function-arn";
     logGroupName := AWS_LAMBDA_LOG_GROUP_NAME env;
     logStreamName := AWS_LAMBDA_LOG_STREAM_NAME env;
     functionName := AWS_LAMBDA_FUNCTION_NAME env;
     functionVersion := AWS_LAMBDA_FUNCTION_VERSION env;
     memoryLimitInMB := AWS_LAMBDA_FUNCTION_MEMORY_SIZE env;
     clientContext := None;
     identity := None;
     getRemainingTimeInMillis := fun now => Js.sub deadline (Js.Num now) |}.

(** [if (data.headers[key]) context.field = JSON.parse(data.headers[key])]. *)
Definition decode_header (data : IRequestResult) (key : string)
    (assign : unknown -> IAWSLambdaContext -> IAWSLambdaContext)
    (context : IAWSLambdaContext) : Run IAWSLambdaContext :=
  if Js.truthy_opt (headers data !! key)
  then do value <- parse (Js.interpolate (headers data !! key));
       ret (assign value context)
  else ret context.

Definition getNextInvocation : Run (unknown * IAWSLambdaContext) :=
  do promise <- load getNextInvocationUrl no_options;
  do data <- await promise;
  do event <- parse (body data);
  let context := base_context data in
  do context <- decode_header data "lambda-runtime-client-context"
                  with_clientContext context;
  do context <- decode_header data "lambda-runtime-cognito-identity"
                  with_identity context;
  do _ <- set_trace_id (headers data !! "Lambda-Runtime-Trace-Id");
  ret (event, context).

(** The failures of the loader are [Error] objects. *)
Definition handleInitError (error : Js.Error) : Run (Promise IRequestResult) :=
  send getInitErrorUrl no_options
       (Chunk (Some (JSON_stringify (createError error)))).

(** [JSON.stringify(createError(error))] on what was caught: [createError]
    reads [err.name] first, which throws on [null] and [undefined]. *)
Definition report_of (error : Thrown) : Run string :=
  match error with
  | ErrorObject e => ret (JSON_stringify (createError e))
  | Nullish => throw nullish_read
  | OtherValue (inl failure) => throw failure
  | OtherValue (inr report) => ret report
  end.

(** The arguments are evaluated before [send] is called. *)
Definition handleInvocationError (error : Thrown)
    (context : IAWSLambdaContext) : Run (Promise IRequestResult) :=
  do report <- report_of error;
  send (getInvocationErrorUrl (awsRequestId context)) no_options
       (Chunk (Some report)).

(** [try { result = await handler(event, context) } catch (e) ...]: what
    was caught, or the result; the program waits as long as the promise of
    the handler has not settled. *)
Definition invoke (handler : Handler) (event : unknown)
    (context : IAWSLambdaContext) : Run (Thrown + Payload) :=
  match handler event context with
  | Returns result => ret (inr (Chunk result))
  | ReturnsUnwritable truthy => ret (inr (Unwritable truthy))
  | Throws e => ret (inl (ErrorObject e))
  | ThrowsNullish => ret (inl Nullish)
  | ThrowsOther report => ret (inl (OtherValue report))
  | NeverSettles => fun w => (Suspended, w)
  end.

(** One pass through the body of the [while (true)] loop. The promise of
    [handleInvocationError] is not awaited before [continue]; what the
    [catch] block itself throws leaves the pass. *)
Definition cycle (handler : Handler) : Run unit :=
  do '(event, context) <- getNextInvocation;
  do outcome <- invoke handler event context;
  match outcome with
  | inl caught =>
      do promise <- handleInvocationError caught context;
      discard promise
  | inr result =>
      do promise <- send (getInvocationResponseUrl (awsRequestId context))
                         no_options result;
      do _ <- await promise;
      ret tt
  end.

Fixpoint loop (fuel : nat) (body : Run unit) : Run unit :=
  match fuel with
  | O => fun w => (OutOfFuel, w)
  | S fuel' => do _ <- body; loop fuel' body
  end.

(** [while (true) body], for a body that leaves the loop only by throwing,
    by suspending or by ending the process, and that takes at least one
    settlement from the control plane at each pass it completes: one more
    pass than there are settlements reaches the end of the run. *)
Definition while_true (body : Run unit) : Run unit :=
  fun w => loop (S (length (controlPlane w))) body w.

(** The promise of [handleInitError] is not awaited before the exit. *)
Definition startRuntime : Run unit :=
  do loaded <-
    attempt (getLambdaHandler (LAMBDA_TASK_ROOT env) (_HANDLER env));
  match loaded with
  | inl e =>
      do promise <- handleInitError e;
      do _ <- discard promise;
      process_exit 1
  | inr handler =>
      do looped <- attempt (while_true (cycle handler));
      match looped with
      | inl e =>
          do _ <- console_error (Js.message e);
          process_exit 1
      | inr _ => ret tt
      end
  end.

(** ** The requests of the protocol, as the runtime issues them *)

Definition post_options : RequestOptions :=
  mkOptions (Some "POST")
            (Some (<["Content-Type" := "application/json"]> ∅)).

Definition next_request : ClientRequest :=
  mkRequest getNextInvocationUrl (mkOptions (Some "GET") None) None.

Definition response_request (requestId result : option string)
  : ClientRequest :=
  mkRequest (getInvocationResponseUrl requestId) post_options
            (payload_written result).

Definition error_request (requestId : option string) (e : Js.Error)
  : ClientRequest :=
  mkRequest (getInvocationErrorUrl requestId) post_options
            (payload_written (Some (JSON_stringify (createError e)))).

Definition init_error_request (e : Js.Error) : ClientRequest :=
  mkRequest getInitErrorUrl post_options
            (payload_written (Some (JSON_stringify (createError e)))).

(** The body of a request as the control plane reads it: what was written,
    nothing otherwise. *)
Definition wire_body (req : ClientRequest) : string :=
  default "" (written req).

(** The last character of a string. *)
Fixpoint last_char (s : string) : option ascii :=
  match s with
  | EmptyString => None
  | String c EmptyString => Some c
  | String _ rest => last_char rest
  end.


End Runtime.

(** ** The specification's reading of a valid handler specifier

    Follows the words of the specification, not the source: the specifier
    splits into exactly a non-empty module path and a non-empty export
    name. *)
Definition spec_splits_exactly (handler : string) : bool :=
  match Js.split dot handler with
  | [path; name] => Js.truthy path && Js.truthy name
  | _ => false
  end.

(** ** A host and a world to run the definitions on *)

Module Example.

Definition digit (c : ascii) : option Z :=
  let n := nat_of_ascii c in
  if (48 <=? n)%nat && (n <=? 57)%nat then Some (Z.of_nat n - 48) else None.

Fixpoint decimal (acc : Z) (s : string) : Js.number :=
  match s with
  | EmptyString => Js.Num acc
  | String c rest =>
      match digit c with
      | Some d => decimal (10 * acc + d) rest
      | None => Js.NaN
      end
  end.

(** A host whose decoded JSON values are the texts themselves, whose
    [JSON.parse] rejects the empty text only, and whose unary [+] reads
    decimal digits. *)
#[local] Instance host : Host := {|
  unknown := string;
  JSON_parse text :=
    if Js.truthy text then inr text
    else inl (Js.mkError "SyntaxError" "Unexpected end of JSON input" None);
  JSON_stringify report :=
    errorType report +:+ ": " +:+ errorMessage report +:+ " @ "
    +:+ Js.join newline (stackTrace report);
  path_join root path := root +:+ "/" +:+ path;
  captureStack message := Some ("Error: " +:+ message);
  unary_plus value :=
    match value with Some text => decimal 0 text | None => Js.NaN end;
  nullish_read :=
    Js.mkError "TypeError" "Cannot read property 'name' of null" None;
  invalid_chunk :=
    Js.mkError "TypeError"
      "The first argument must be one of type string or Buffer" None
|}.

Definition env : ProcessEnv :=
  mkEnv "fn" "$LATEST" "128" "/aws/lambda/fn" "2019/11/01/[$LATEST]abc"
        "/var/task" "index.handler" (Some "http://127.0.0.1:9001").

Definition boom : Js.Error :=
  Js.mkError "Error" "boom" (Some "Error: boom").

(** A handler that throws on the event [boom] and echoes any other. *)
Definition handler : Handler :=
  fun event _ =>
    if String.eqb event "boom" then Throws boom else Returns (Some event).

Definition modules (path : string) : Js.Error + option Module :=
  if String.eqb path "/var/task/index"
  then inr (Some (fun name =>
                    if String.eqb name "handler" then Some handler else None))
  else inl (Js.mkError "Error" "Cannot find module" None).

Definition world (answers : list Settlement) : World :=
  mkWorld None modules [] answers [] None [] [].

(** The answer to a poll: an invocation with its headers, named as the
    control plane sends them, and its event. *)
Definition invocation (requestId event : string) : IncomingMessage :=
  mkMessage (Some 200)
            [("Lambda-Runtime-Aws-Request-Id", requestId);
             ("Lambda-Runtime-Deadline-Ms", "1572566400000");
             ("Lambda-Runtime-Trace-Id", "Root=1-5dbb2a00-abc")]
            [event].

Definition next (requestId event : string) : Settlement :=
  Answers (invocation requestId event).

Definition accepted : Settlement :=
  Answers (mkMessage (Some 202) [] []).

Definition refused : Settlement :=
  Fails (Js.mkError "Error" "connect ECONNREFUSED" None).

(** The same function, configured with an export the module lacks. *)
Definition env_missing : ProcessEnv :=
  mkEnv "fn" "$LATEST" "128" "/aws/lambda/fn" "2019/11/01/[$LATEST]abc"
        "/var/task" "index.missing" (Some "http://127.0.0.1:9001").

End Example.

(** ** Runs of several passes, and what a run can observe *)

Section Observations.

Context {host : Host}.

(** [n] passes of a loop body in a row, each completed before the next. *)
Fixpoint passes (n : nat) (body : Run unit) : Run unit :=
  match n with
  | O => ret tt
  | S n' => bind body (fun _ => passes n' body)
  end.

(** The requests of completed passes: each report behind its poll. *)
Definition polled_reports (poll : ClientRequest)
    (reports : list ClientRequest) : list ClientRequest :=
  flat_map (fun report => [poll; report]) reports.

(** Two settlements that differ in the status code of the answer at most. *)
Definition same_answer (s s' : Settlement) : Prop :=
  match s, s' with
  | Answers res, Answers res' =>
      rawHeaders res = rawHeaders res' /\ chunks res = chunks res'
  | Fails e, Fails e' => e = e'
  | Refuses e, Refuses e' => e = e'
  | _, _ => False
  end.

(** Two worlds that differ in the status codes of the answers to come at
    most. *)
Definition same_world (w w' : World) : Prop :=
  _X_AMZN_TRACE_ID w = _X_AMZN_TRACE_ID w' /\
  modules w = modules w' /\
  issued w = issued w' /\
  Forall2 same_answer (controlPlane w) (controlPlane w') /\
  stderr w = stderr w' /\
  exitCode w = exitCode w' /\
  unhandledRejections w = unhandledRejections w' /\
  undelivered w = undelivered w'.

(** Two promises of requests that differ in the status code of the answer
    at most. *)
Definition same_promise (p p' : Promise IRequestResult) : Prop :=
  match p, p' with
  | Fulfilled data, Fulfilled data' =>
      headers data = headers data' /\ body data = body data'
  | Rejected e, Rejected e' => e = e'
  | Pending, Pending => True
  | _, _ => False
  end.

(** A computation that does not tell such worlds apart. *)
Definition status_blind {A} (m : Run A) : Prop :=
  forall w w' : World,
    same_world w w' ->
    (m w).1 = (m w').1 /\ same_world (m w).2 (m w').2.

End Observations.

(** ** Awkward answers of the control plane *)

Module Awkward.

(** A host like the one of the example, whose [JSON.parse] also rejects the
    text of an object that is not closed. *)
#[local] Instance host : Host := {|
  unknown := string;
  JSON_parse text :=
    if Js.truthy text && negb (String.eqb text "{") then inr text
    else inl (Js.mkError "SyntaxError" "Unexpected end of JSON input" None);
  JSON_stringify report :=
    errorType report +:+ ": " +:+ errorMessage report +:+ " @ "
    +:+ Js.join newline (stackTrace report);
  path_join root path := root +:+ "/" +:+ path;
  captureStack message := Some ("Error: " +:+ message);
  unary_plus value :=
    match value with Some text => Example.decimal 0 text | None => Js.NaN end;
  nullish_read :=
    Js.mkError "TypeError" "Cannot read property 'name' of null" None;
  invalid_chunk :=
    Js.mkError "TypeError"
      "The first argument must be one of type string or Buffer" None
|}.

(** A handler that returns nothing. *)
Definition silent : Handler := fun _ _ => Returns None.


(** A handler that returns an object. *)
Definition structured : Handler := fun _ _ => ReturnsUnwritable true.

(** A handler whose promise never settles. *)
Definition sleeping : Handler := fun _ _ => NeverSettles.

(** A world whose module exports the given handler under every name. *)
Definition running (handler : Handler) (answers : list Settlement) : World :=
  mkWorld None (fun _ => inr (Some (fun _ => Some handler))) [] answers []
          None [] [].

Definition world (answers : list Settlement) : World :=
  mkWorld None (fun _ => inr (Some (fun _ => Some silent))) [] answers []
          None [] [].

(** An invocation with a client-context header and no deadline. *)
Definition with_client_context (text : string) : IncomingMessage :=
  mkMessage (Some 200)
            [("Lambda-Runtime-Aws-Request-Id", "r1");
             ("Lambda-Runtime-Client-Context", text)]
            ["one"].

(** An answer with an event and none of the headers of the protocol. *)
Definition bare : IncomingMessage := mkMessage (Some 200) [] ["one"].

(** The answers of the example with other status codes. *)
Definition unavailable (requestId event : string) : Settlement :=
  Answers (mkMessage (Some 503)
             (rawHeaders (Example.invocation requestId event)) [event]).

Definition not_found : Settlement := Answers (mkMessage (Some 404) [] []).

End Awkward.

(** ** Splitting and joining *)

Lemma split_not_nil (sep : ascii) (s : string) : Js.split sep s <> [].
Proof.
  destruct s as [|c rest]; simpl; [discriminate|].
  destruct (Ascii.eqb c sep); [discriminate|].
  destruct (Js.split sep rest); discriminate.
Qed.

Lemma join_split (sep : ascii) (s : string) :
  Js.join sep (Js.split sep s) = s.
Proof.
  induction s as [|c rest IH]; [reflexivity|].
  simpl. destruct (Ascii.eqb c sep) eqn:Hc.
  - apply Ascii.eqb_eq in Hc. subst c.
    pose proof (split_not_nil sep rest) as Hne.
    unfold Js.join in *. simpl.
    destruct (Js.split sep rest) as [|piece pieces]; [done|].
    simpl. by rewrite <- IH.
  - pose proof (split_not_nil sep rest) as Hne.
    unfold Js.join in *.
    destruct (Js.split sep rest) as [|piece pieces]; [done|].
    rewrite <- IH. simpl. by destruct pieces.
Qed.

Lemma length_split (sep : ascii) (s : string) :
  length (Js.split sep s) = S (Js.occurrences sep s).
Proof.
  induction s as [|c rest IH]; [reflexivity|].
  simpl. destruct (Ascii.eqb c sep).
  - simpl. by rewrite IH.
  - pose proof (split_not_nil sep rest) as Hne.
    destruct (Js.split sep rest); [done|]. simpl in *. lia.
Qed.

Lemma split_without_separator (sep : ascii) (s : string) :
  Js.occurrences sep s = O -> Js.split sep s = [s].
Proof.
  induction s as [|c rest IH]; [reflexivity|].
  simpl. destruct (Ascii.eqb c sep); [discriminate|].
  intros H. by rewrite (IH H).
Qed.

Lemma pieces_without_separator (sep : ascii) (s : string) :
  Forall (fun piece => Js.occurrences sep piece = O) (Js.split sep s).
Proof.
  induction s as [|c rest IH]; simpl; [by repeat constructor|].
  destruct (Ascii.eqb c sep) eqn:Hc; [by constructor|].
  destruct (Js.split sep rest) as [|piece pieces]; simpl.
  - repeat constructor. simpl. by rewrite Hc.
  - inversion IH; subst. constructor; [|done]. simpl. by rewrite Hc.
Qed.

Lemma truthy_true (s : string) : Js.truthy s = true <-> s <> "".
Proof.
  unfold Js.truthy. rewrite negb_true_iff. split.
  - intros H ->. by rewrite String.eqb_refl in H.
  - intros H. by apply String.eqb_neq.
Qed.

Lemma or_empty_text (s : string) : Js.or_empty (Some s) = s.
Proof.
  unfold Js.or_empty. destruct (Js.truthy s) eqn:H; [done|].
  destruct s; [done|]. discriminate.
Qed.

(** ** Error normalization *)

(** C3. [createError] maps a thrown failure to the record whose [errorType]
    is the failure's name, whose [errorMessage] is its message and whose
    [stackTrace] is its stack text split at the line breaks: every line is
    kept, the first one included (joining the pieces with line breaks gives
    the text back, and there is one piece more than there are line breaks);
    a failure without stack text gives the one empty line. The failure
    [TypeError] / [bad] with the three-line stack of the specification is
    normalized to the record the specification gives. *)
Theorem C3_createError_normalizes :
  (forall err : Js.Error,
     errorType (createError err) = Js.name err /\
     errorMessage (createError err) = Js.message err /\
     stackTrace (createError err) = Js.split newline (Js.or_empty (Js.stack err)) /\
     (Js.stack err = None -> stackTrace (createError err) = [""]) /\
     (forall text : string, Js.stack err = Some text ->
        stackTrace (createError err) = Js.split newline text /\
        Js.join newline (stackTrace (createError err)) = text /\
        length (stackTrace (createError err)) = S (Js.occurrences newline text) /\
        Forall (fun line => Js.occurrences newline line = O)
               (stackTrace (createError err)))) /\
  createError
    (Js.mkError "TypeError" "bad"
       (Some ("TypeError: bad" +:+ String newline "at foo"
              +:+ String newline "at bar")))
  = {| errorType := "TypeError";
       errorMessage := "bad";
       stackTrace := ["TypeError: bad"; "at foo"; "at bar"] |}.
Proof.
  split; [|reflexivity].
  intros [name message stack]. unfold createError. simpl.
  split; [done|]. split; [done|]. split; [done|]. split.
  - by intros ->.
  - intros text ->. rewrite or_empty_text.
    split; [done|]. split; [apply join_split|].
    split; [apply length_split|apply pieces_without_separator].
Qed.

(** ** The response-status predicate *)

(** C10. [isResponseOk] is true of every response whose status code is a
    number: the test is a disjunction of [>= 200] and [<= 300], which every
    integer satisfies; 404 and 500 are accepted as well. *)
Theorem C10_isResponseOk_accepts_every_status :
  (forall (status : Z) (h : IncomingHttpHeaders) (b : string),
     isResponseOk (mkRequestResult (Some status) h b) = true) /\
  isResponseOk (mkRequestResult (Some 404) ∅ "Not Found") = true /\
  isResponseOk (mkRequestResult (Some 500) ∅ "Internal Server Error") = true.
Proof.
  split; [|split; reflexivity].
  intros status h b. unfold isResponseOk. simpl.
  apply orb_true_iff.
  destruct (Z.leb_spec 200 status); [by left|right].
  apply Z.leb_le. lia.
Qed.

(** A response without a status code is the only one rejected. *)
Lemma isResponseOk_undefined (h : IncomingHttpHeaders) (b : string) :
  isResponseOk (mkRequestResult None h b) = false.
Proof. reflexivity. Qed.

Section Properties.

Context {host : Host} (env : ProcessEnv).

(** ** Handler resolution *)

Lemma invalid_handler_false (handler : string) :
  invalid_handler handler = false <->
  exists path name rest,
    Js.split dot handler = path :: name :: rest /\ path <> "" /\ name <> "".
Proof.
  unfold invalid_handler, handlerPath, handlerName.
  rewrite orb_false_iff, !negb_false_iff. split.
  - intros [Hpath Hname].
    destruct (Js.split dot handler) as [|path [|name rest]];
      simpl in *; try discriminate.
    exists path, name, rest. by rewrite <- !truthy_true.
  - intros (path & name & rest & -> & Hpath & Hname). simpl.
    by rewrite !truthy_true.
Qed.

Lemma invalid_without_separator (handler : string) :
  Js.occurrences dot handler = O -> invalid_handler handler = true.
Proof.
  intros H. unfold invalid_handler, handlerName.
  rewrite (split_without_separator _ _ H). simpl. apply orb_true_r.
Qed.

Lemma getLambdaHandler_invalid (root handler : string) (w : World) :
  invalid_handler handler = true ->
  getLambdaHandler root handler w
  = (Throw (new_Error ("Invalid handler: " +:+ handler)), w).
Proof. intros H. unfold getLambdaHandler. by rewrite H. Qed.

(** Resolution reads the module table and leaves the world as it was: it
    issues no request. *)
Lemma getLambdaHandler_world (root handler : string) (w w' : World)
    (c : Completion Handler) :
  getLambdaHandler root handler w = (c, w') -> w' = w.
Proof.
  unfold getLambdaHandler, bind, import, throw, ret.
  repeat case_match; intros; by simplify_eq.
Qed.

(** C2, as the specification words it, fails on [a.b.c]: the specifier does
    not split into exactly a path and a name, and the check lets it through
    with the path [a] and the name [b]. *)
Lemma C2_three_pieces_accepted :
  spec_splits_exactly "a.b.c" = false /\
  invalid_handler "a.b.c" = false /\
  handlerPath "a.b.c" = Some "a" /\
  handlerName "a.b.c" = Some "b".
Proof. by repeat split. Qed.

(** The check splits at every dot, so a path that starts with a dot has an
    empty first piece and is rejected. *)
Lemma relative_path_rejected : invalid_handler "./index.handler" = true.
Proof. reflexivity. Qed.

(** C2, amended. A handler specifier is invalid if and only if the first or
    the second piece of its split at the dots is missing or empty; pieces
    after the second are not looked at. A specifier that splits into exactly
    a non-empty path and a non-empty name is valid. Resolution of an invalid
    specifier throws [Invalid handler: ...] and leaves the world untouched,
    so no request has been issued when it fails; a specifier without a dot
    is invalid. *)
Theorem C2_invalid_handler :
  forall (root handler : string) (w : World),
    (invalid_handler handler = true <->
     ~ exists path name rest,
         Js.split dot handler = path :: name :: rest
         /\ path <> "" /\ name <> "") /\
    (spec_splits_exactly handler = true -> invalid_handler handler = false) /\
    (invalid_handler handler = true ->
     getLambdaHandler root handler w
     = (Throw (new_Error ("Invalid handler: " +:+ handler)), w)) /\
    (Js.occurrences dot handler = O ->
     invalid_handler handler = true /\
     exists w',
       getLambdaHandler root handler w
       = (Throw (new_Error ("Invalid handler: " +:+ handler)), w')
       /\ issued w' = issued w /\ controlPlane w' = controlPlane w).
Proof.
  intros root handler w. split; [|split; [|split]].
  - rewrite <- invalid_handler_false. by destruct (invalid_handler handler).
  - intros H. apply invalid_handler_false. unfold spec_splits_exactly in H.
    destruct (Js.split dot handler) as [|path [|name [|]]]; try discriminate.
    apply andb_true_iff in H as [Hpath Hname].
    exists path, name, []. by rewrite <- !truthy_true.
  - apply getLambdaHandler_invalid.
  - intros H. pose proof (invalid_without_separator _ H) as Hinv.
    split; [done|]. exists w. by rewrite getLambdaHandler_invalid.
Qed.
(** ** The header object of a response *)

Lemma lower_ascii_not_L (c : ascii) : Js.lower_ascii c <> "L"%char.
Proof. destruct c as [[] [] [] [] [] [] [] []]; vm_compute; discriminate. Qed.

Lemma toLowerCase_not_capitalized (name rest : string) :
  Js.toLowerCase name <> String "L" rest.
Proof.
  destruct name as [|c name]; simpl; [discriminate|].
  intros H. injection H as Hc _. by apply lower_ascii_not_L in Hc.
Qed.

(** Every name of the header object is a lower-cased name. *)
Lemma add_headers_names (lines : list (string * string))
    (m : IncomingHttpHeaders) (key : string) :
  (is_Some (m !! key) -> exists name, key = Js.toLowerCase name) ->
  is_Some (foldl add_header m lines !! key) ->
  exists name, key = Js.toLowerCase name.
Proof.
  revert m. induction lines as [|line lines IH]; intros m Hm; simpl; [done|].
  apply IH. unfold add_header.
  destruct (decide (Js.toLowerCase line.1 = key)) as [<-|Hne].
  - intros _. by eexists.
  - by rewrite lookup_insert_ne.
Qed.

Lemma res_headers_names (res : IncomingMessage) (key value : string) :
  res_headers res !! key = Some value ->
  exists name, key = Js.toLowerCase name.
Proof.
  intros H. apply (add_headers_names (rawHeaders res) ∅ key).
  - rewrite lookup_empty. by intros [? ?].
  - unfold res_headers in H. by rewrite H.
Qed.

(** The key [Lambda-Runtime-Trace-Id] is in no header object. *)
Lemma res_headers_trace_id (res : IncomingMessage) :
  res_headers res !! "Lambda-Runtime-Trace-Id" = None.
Proof.
  destruct (res_headers res !! "Lambda-Runtime-Trace-Id") as [value|] eqn:H;
    [|done].
  apply res_headers_names in H as [name H]. symmetry in H.
  by apply toLowerCase_not_capitalized in H.
Qed.

(** The lower-case key finds the header whatever the case it was sent in. *)
Lemma res_headers_single (status : option Z) (name value : string)
    (body : list string) :
  res_headers (mkMessage status [(name, value)] body)
  !! Js.toLowerCase name = Some value.
Proof. unfold res_headers, add_header. simpl. by rewrite lookup_insert_eq. Qed.

(** ** The poll *)

Lemma bind_normal {A B} (m : Run A) (k : A -> Run B) (w w' : World) (a : A) :
  m w = (Normal a, w') -> bind m k w = k a w'.
Proof. intros H. unfold bind. by rewrite H. Qed.

Lemma bind_throw {A B} (m : Run A) (k : A -> Run B) (w w' : World)
    (e : Js.Error) :
  m w = (Throw e, w') -> bind m k w = (Throw e, w').
Proof. intros H. unfold bind. by rewrite H. Qed.

Lemma bind_suspended {A B} (m : Run A) (k : A -> Run B) (w w' : World) :
  m w = (Suspended, w') -> bind m k w = (Suspended, w').
Proof. intros H. unfold bind. by rewrite H. Qed.

(** An optional header leaves the world alone; it throws, leaves the
    context as it is, or assigns the decoded value. *)
Lemma decode_header_cases (data : IRequestResult) (key : string)
    (assign : unknown -> IAWSLambdaContext -> IAWSLambdaContext)
    (context : IAWSLambdaContext) (w : World) :
  (exists e, decode_header data key assign context w = (Throw e, w)) \/
  decode_header data key assign context w = (Normal context, w) \/
  (exists value,
     decode_header data key assign context w
     = (Normal (assign value context), w)).
Proof.
  unfold decode_header, parse.
  destruct (Js.truthy_opt (headers data !! key)); [|by right; left].
  destruct (JSON_parse (Js.interpolate (headers data !! key))) as [e|value].
  - left. by exists e.
  - right. right. by exists value.
Qed.

(** What the host does with the first request of a run. *)
Lemma refusal_issued (w : World) : issued w <> [] -> refusal w = None.
Proof. unfold refusal. by destruct (issued w). Qed.

Lemma refusal_head (w : World) :
  (forall e, head (controlPlane w) <> Some (Refuses e)) -> refusal w = None.
Proof.
  intros H. unfold refusal. destruct (issued w); [|done].
  destruct (head (controlPlane w)) as [[res|e|e]|]; try done.
  by destruct (H e).
Qed.

Lemma refusal_some (w : World) (e : Js.Error) :
  refusal w = Some e ->
  issued w = [] /\ head (controlPlane w) = Some (Refuses e).
Proof.
  unfold refusal. destruct (issued w); [|done].
  destruct (head (controlPlane w)) as [[res|e'|e']|]; try done.
  by intros [= ->].
Qed.

(** A request with a payload that [req.write] takes, issued and awaited. *)
Lemma request_awaited {B} (u : string) (o : RequestOptions)
    (text : option string) (k : IRequestResult -> Run B) (w : World) :
  refusal w = None ->
  bind (request u o (Chunk text)) (fun promise => bind (await promise) k) w
  = match settle (head (controlPlane w)) with
    | Fulfilled data =>
        k data (with_request (mkRequest u o (payload_written text)) w)
    | Rejected e =>
        (Throw e, with_request (mkRequest u o (payload_written text)) w)
    | Pending =>
        (Suspended, with_request (mkRequest u o (payload_written text)) w)
    end.
Proof.
  intros H. unfold bind, request, await. rewrite H.
  by destruct (settle (head (controlPlane w))).
Qed.

(** A request that the host refuses, awaited. *)
Lemma request_refused {B} (u : string) (o : RequestOptions)
    (payload : Payload) (k : IRequestResult -> Run B) (w : World)
    (e : Js.Error) :
  refusal w = Some e ->
  bind (request u o payload) (fun promise => bind (await promise) k) w
  = (Throw e, with_delivery (with_refusal w)).
Proof. intros H. unfold bind, request, await. by rewrite H. Qed.

Lemma poll_refused (w : World) (e : Js.Error) :
  refusal w = Some e ->
  getNextInvocation env w = (Throw e, with_delivery (with_refusal w)).
Proof.
  intros H. unfold getNextInvocation, load. cbv zeta.
  by apply request_refused.
Qed.

Lemma poll_failed (w : World) (e : Js.Error) :
  refusal w = None ->
  settle (head (controlPlane w)) = Rejected e ->
  getNextInvocation env w = (Throw e, with_request (next_request env) w).
Proof.
  intros Href H. unfold getNextInvocation, load. cbv zeta.
  by rewrite (request_awaited _ _ _ _ _ Href), H.
Qed.

Lemma poll_pending (w : World) :
  refusal w = None ->
  head (controlPlane w) = None ->
  getNextInvocation env w = (Suspended, with_request (next_request env) w).
Proof.
  intros Href H. unfold getNextInvocation, load. cbv zeta.
  by rewrite (request_awaited _ _ _ _ _ Href), H.
Qed.

Lemma poll_answered (w : World) (res : IncomingMessage) :
  head (controlPlane w) = Some (Answers res) ->
  getNextInvocation env w
  = bind (parse (body (resolved res)))
      (fun event =>
         bind (decode_header (resolved res) "lambda-runtime-client-context"
                 with_clientContext (base_context env (resolved res)))
           (fun context =>
              bind (decode_header (resolved res)
                      "lambda-runtime-cognito-identity" with_identity context)
                (fun context =>
                   bind (set_trace_id
                           (headers (resolved res)
                            !! "Lambda-Runtime-Trace-Id"))
                     (fun _ => ret (event, context)))))
      (with_request (next_request env) w).
Proof.
  intros Hhead.
  assert (refusal w = None) as Href
    by (apply refusal_head; intros e; by rewrite Hhead).
  unfold getNextInvocation, load. cbv zeta.
  by rewrite (request_awaited _ _ _ _ _ Href), Hhead.
Qed.

(** The four ways a poll ends. *)
Lemma getNextInvocation_cases (w : World) :
  (exists e,
     refusal w = Some e /\
     getNextInvocation env w = (Throw e, with_delivery (with_refusal w))) \/
  (refusal w = None /\ head (controlPlane w) = None /\
   getNextInvocation env w = (Suspended, with_request (next_request env) w))
  \/
  (refusal w = None /\
   exists e,
     getNextInvocation env w
     = (Throw e, with_request (next_request env) w)) \/
  (exists (res : IncomingMessage) (event : unknown)
          (context : IAWSLambdaContext),
     head (controlPlane w) = Some (Answers res) /\
     JSON_parse (body (resolved res)) = inr event /\
     awsRequestId context
     = headers (resolved res) !! "lambda-runtime-aws-request-id" /\
     invokedFunctionArn context
     = headers (resolved res) !! "lambda-runtime-invoked-function-arn" /\
     getRemainingTimeInMillis context
     = (fun now =>
          Js.sub (unary_plus
                    (headers (resolved res) !! "lambda-runtime-deadline-ms"))
                 (Js.Num now)) /\
     getNextInvocation env w
     = (Normal (event, context),
        with_trace_id
          (Js.interpolate
             (headers (resolved res) !! "Lambda-Runtime-Trace-Id"))
          (with_request (next_request env) w))).
Proof.
  destruct (refusal w) as [refused|] eqn:Href.
  { left. exists refused. split; [done|]. by apply poll_refused. }
  right.
  destruct (head (controlPlane w)) as [[res|e|e]|] eqn:Hhead.
  - right. rewrite (poll_answered _ _ Hhead).
    set (w' := with_request (next_request env) w).
    destruct (JSON_parse (body (resolved res))) as [e|event] eqn:Hevent.
    { left. split; [done|]. exists e. apply bind_throw. unfold parse.
      by rewrite Hevent. }
    rewrite (bind_normal _ _ w' w' event);
      [|unfold parse; by rewrite Hevent].
    destruct (decode_header_cases (resolved res)
                "lambda-runtime-client-context" with_clientContext
                (base_context env (resolved res)) w')
      as [[e H1]|[H1|[v1 H1]]];
      [left; split; [done|]; exists e; by apply bind_throw
      |rewrite (bind_normal _ _ _ _ _ H1)..].
    + destruct (decode_header_cases (resolved res)
                  "lambda-runtime-cognito-identity" with_identity
                  (base_context env (resolved res)) w')
        as [[e H2]|[H2|[v2 H2]]];
        [left; split; [done|]; exists e; by apply bind_throw
        |rewrite (bind_normal _ _ _ _ _ H2)..];
        right; eexists res, event, _; by repeat split.
    + destruct (decode_header_cases (resolved res)
                  "lambda-runtime-cognito-identity" with_identity
                  (with_clientContext v1 (base_context env (resolved res)))
                  w')
        as [[e H2]|[H2|[v2 H2]]];
        [left; split; [done|]; exists e; by apply bind_throw
        |rewrite (bind_normal _ _ _ _ _ H2)..];
        right; eexists res, event, _; by repeat split.
  - right. left. split; [done|]. exists e. apply poll_failed; [done|].
    by rewrite Hhead.
  - right. left. split; [done|]. exists e. apply poll_failed; [done|].
    by rewrite Hhead.
  - left. split; [done|]. split; [done|]. by apply poll_pending.
Qed.

Lemma getNextInvocation_normal (w w1 : World) (event : unknown)
    (context : IAWSLambdaContext) :
  getNextInvocation env w = (Normal (event, context), w1) ->
  exists res : IncomingMessage,
    head (controlPlane w) = Some (Answers res) /\
    JSON_parse (body (resolved res)) = inr event /\
    awsRequestId context
    = headers (resolved res) !! "lambda-runtime-aws-request-id" /\
    invokedFunctionArn context
    = headers (resolved res) !! "lambda-runtime-invoked-function-arn" /\
    getRemainingTimeInMillis context
    = (fun now =>
         Js.sub (unary_plus
                   (headers (resolved res) !! "lambda-runtime-deadline-ms"))
                (Js.Num now)) /\
    w1 = with_trace_id
           (Js.interpolate
              (headers (resolved res) !! "Lambda-Runtime-Trace-Id"))
           (with_request (next_request env) w).
Proof.
  intros H.
  destruct (getNextInvocation_cases w)
    as [(e & _ & H')|[(_ & _ & H')|[(_ & e & H')
       |(res & ev & ctx & Hhead & Hev & Hid & Harn & Htime & H')]]];
    rewrite H' in H; try discriminate.
  injection H as <- <- <-. by exists res.
Qed.

(** A poll that completes has issued the request to [/next] and no other,
    and has waited for its answer: nothing is left to send. *)
Lemma getNextInvocation_issued (w w1 : World)
    (invocation : unknown * IAWSLambdaContext) :
  getNextInvocation env w = (Normal invocation, w1) ->
  issued w1 = issued w ++ [next_request env]
  /\ controlPlane w1 = tail (controlPlane w)
  /\ stderr w1 = stderr w /\ exitCode w1 = exitCode w
  /\ unhandledRejections w1 = unhandledRejections w
  /\ undelivered w1 = []
  /\ refusal w1 = None.
Proof.
  destruct invocation as [event context]. intros H.
  apply getNextInvocation_normal in H as (res & _ & _ & _ & _ & _ & ->).
  repeat (split; [done|]). apply refusal_issued. simpl.
  by destruct (issued w).
Qed.

(** Whatever way a poll ends, it issues the request to [/next] or nothing,
    takes one settlement, and leaves the exit status, the error output and
    the unhandled rejections alone. *)
Lemma getNextInvocation_frame (w w1 : World)
    (c : Completion (unknown * IAWSLambdaContext)) :
  getNextInvocation env w = (c, w1) ->
  (issued w1 = issued w \/ issued w1 = issued w ++ [next_request env])
  /\ controlPlane w1 = tail (controlPlane w)
  /\ stderr w1 = stderr w /\ exitCode w1 = exitCode w
  /\ unhandledRejections w1 = unhandledRejections w.
Proof.
  intros H.
  destruct (getNextInvocation_cases w)
    as [(e & _ & H')|[(_ & _ & H')|[(_ & e & H')
       |(res & ev & ctx & _ & _ & _ & _ & _ & H')]]];
    rewrite H' in H; injection H as <- <-;
    (split; [by (left + right)|by repeat split]).
Qed.

Lemma getNextInvocation_completion (w w1 : World)
    (c : Completion (unknown * IAWSLambdaContext)) :
  getNextInvocation env w = (c, w1) -> c <> Exited /\ c <> OutOfFuel.
Proof.
  intros H.
  destruct (getNextInvocation_cases w)
    as [(e & _ & H')|[(_ & _ & H')|[(_ & e & H')
       |(res & ev & ctx & _ & _ & _ & _ & _ & H')]]];
    rewrite H' in H; injection H as <- <-; by split.
Qed.

(** A poll that is answered with an event that decodes, and without the
    optional headers, gives the event and the context of the required
    headers. *)
Lemma getNextInvocation_answers (w : World) (res : IncomingMessage)
    (event : unknown) :
  head (controlPlane w) = Some (Answers res) ->
  JSON_parse (body (resolved res)) = inr event ->
  Js.truthy_opt (headers (resolved res) !! "lambda-runtime-client-context")
  = false ->
  Js.truthy_opt (headers (resolved res) !! "lambda-runtime-cognito-identity")
  = false ->
  getNextInvocation env w
  = (Normal (event, base_context env (resolved res)),
     with_trace_id "undefined" (with_request (next_request env) w)).
Proof.
  intros Hhead Hevent Hclient Hidentity. rewrite (poll_answered _ _ Hhead).
  rewrite (bind_normal _ _ _ (with_request (next_request env) w) event);
    [|unfold parse; by rewrite Hevent].
  unfold decode_header. rewrite Hclient, Hidentity.
  cbv [bind ret set_trace_id]. cbn [headers resolved].
  by rewrite res_headers_trace_id.
Qed.

(** ** One pass of the loop *)

Section Cycle.

Variable handler : Handler.

(** After the poll the handler is called, and its outcome decides. *)
Lemma cycle_polled (w wa : World) (event : unknown)
    (context : IAWSLambdaContext) :
  getNextInvocation env w = (Normal (event, context), wa) ->
  cycle env handler w
  = bind (invoke handler event context)
      (fun outcome =>
         match outcome with
         | inl caught =>
             bind (handleInvocationError env caught context)
               (fun promise => discard promise)
         | inr result =>
             bind (send (getInvocationResponseUrl env (awsRequestId context))
                        no_options result)
               (fun promise => bind (await promise) (fun _ => ret tt))
         end) wa.
Proof. intros H. unfold cycle. by rewrite (bind_normal _ _ _ _ _ H). Qed.

Lemma cycle_returns (w wa : World) (event : unknown)
    (context : IAWSLambdaContext) (result : option string) :
  getNextInvocation env w = (Normal (event, context), wa) ->
  handler event context = Returns result ->
  cycle env handler w
  = (match settle (head (controlPlane wa)) with
     | Fulfilled _ => Normal tt
     | Rejected e => Throw e
     | Pending => Suspended
     end,
     with_request (response_request env (awsRequestId context) result) wa).
Proof.
  intros Hpoll Hcall.
  pose proof (getNextInvocation_issued _ _ _ Hpoll) as (_ & _ & _ & _ & _ & _ & Href).
  rewrite (cycle_polled _ _ _ _ Hpoll). unfold invoke. rewrite Hcall.
  rewrite (bind_normal (ret _) _ wa wa _ eq_refl). cbv beta iota.
  unfold send. cbv zeta. rewrite (request_awaited _ _ _ _ _ Href).
  by destruct (settle (head (controlPlane wa))).
Qed.


(** A result that [req.write] does not take and that is falsy is not
    written: the response is posted without a body. *)
Lemma cycle_returns_falsy (w wa : World) (event : unknown)
    (context : IAWSLambdaContext) :
  getNextInvocation env w = (Normal (event, context), wa) ->
  handler event context = ReturnsUnwritable false ->
  cycle env handler w
  = (match settle (head (controlPlane wa)) with
     | Fulfilled _ => Normal tt
     | Rejected e => Throw e
     | Pending => Suspended
     end,
     with_request (response_request env (awsRequestId context) None) wa).
Proof.
  intros Hpoll Hcall.
  pose proof (getNextInvocation_issued _ _ _ Hpoll) as (_ & _ & _ & _ & _ & _ & Href).
  rewrite (cycle_polled _ _ _ _ Hpoll). unfold invoke. rewrite Hcall.
  rewrite (bind_normal (ret _) _ wa wa _ eq_refl). cbv beta iota.
  unfold send, bind, request, await. cbv zeta. rewrite Href.
  by destruct (settle (head (controlPlane wa))).
Qed.

(** A truthy result that [req.write] does not take: the promise of [send]
    is rejected with the failure of [req.write], no request is issued, and
    the failure leaves the pass. *)
Lemma cycle_returns_unwritable (w wa : World) (event : unknown)
    (context : IAWSLambdaContext) :
  getNextInvocation env w = (Normal (event, context), wa) ->
  handler event context = ReturnsUnwritable true ->
  cycle env handler w = (Throw invalid_chunk, wa).
Proof.
  intros Hpoll Hcall.
  pose proof (getNextInvocation_issued _ _ _ Hpoll) as (_ & _ & _ & _ & _ & _ & Href).
  rewrite (cycle_polled _ _ _ _ Hpoll). unfold invoke. rewrite Hcall.
  rewrite (bind_normal (ret _) _ wa wa _ eq_refl). cbv beta iota.
  unfold send, bind, request, await. cbv zeta. rewrite Href.
  apply getNextInvocation_normal in Hpoll as (res & _ & _ & _ & _ & _ & ->).
  reflexivity.
Qed.

Lemma cycle_throws (w wa : World) (event : unknown)
    (context : IAWSLambdaContext) (e : Js.Error) :
  getNextInvocation env w = (Normal (event, context), wa) ->
  handler event context = Throws e ->
  cycle env handler w
  = (Normal tt,
     with_unhandled (settle (head (controlPlane wa)))
       (with_queued (error_request env (awsRequestId context) e) wa)).
Proof.
  intros Hpoll Hcall.
  pose proof (getNextInvocation_issued _ _ _ Hpoll) as (_ & _ & _ & _ & _ & _ & Href).
  rewrite (cycle_polled _ _ _ _ Hpoll). unfold invoke. rewrite Hcall.
  rewrite (bind_normal (ret _) _ wa wa _ eq_refl). cbv beta iota.
  unfold handleInvocationError, report_of, send, bind, ret, request, discard.
  cbv beta iota zeta. by rewrite Href.
Qed.

(** What was caught is [null] or [undefined]: [createError] throws in the
    [catch] block, before anything is reported, and the failure leaves the
    pass. *)
Lemma cycle_throws_nullish (w wa : World) (event : unknown)
    (context : IAWSLambdaContext) :
  getNextInvocation env w = (Normal (event, context), wa) ->
  handler event context = ThrowsNullish ->
  cycle env handler w = (Throw nullish_read, wa).
Proof.
  intros Hpoll Hcall.
  rewrite (cycle_polled _ _ _ _ Hpoll). unfold invoke. rewrite Hcall.
  by rewrite (bind_normal (ret _) _ wa wa _ eq_refl).
Qed.

(** Another value thrown, for which the report cannot be built. *)
Lemma cycle_throws_unreportable (w wa : World) (event : unknown)
    (context : IAWSLambdaContext) (failure : Js.Error) :
  getNextInvocation env w = (Normal (event, context), wa) ->
  handler event context = ThrowsOther (inl failure) ->
  cycle env handler w = (Throw failure, wa).
Proof.
  intros Hpoll Hcall.
  rewrite (cycle_polled _ _ _ _ Hpoll). unfold invoke. rewrite Hcall.
  by rewrite (bind_normal (ret _) _ wa wa _ eq_refl).
Qed.

(** Another value thrown, with the text of its report. *)
Lemma cycle_throws_other (w wa : World) (event : unknown)
    (context : IAWSLambdaContext) (report : string) :
  getNextInvocation env w = (Normal (event, context), wa) ->
  handler event context = ThrowsOther (inr report) ->
  cycle env handler w
  = (Normal tt,
     with_unhandled (settle (head (controlPlane wa)))
       (with_queued
          (mkRequest (getInvocationErrorUrl env (awsRequestId context))
                     post_options (payload_written (Some report))) wa)).
Proof.
  intros Hpoll Hcall.
  pose proof (getNextInvocation_issued _ _ _ Hpoll) as (_ & _ & _ & _ & _ & _ & Href).
  rewrite (cycle_polled _ _ _ _ Hpoll). unfold invoke. rewrite Hcall.
  rewrite (bind_normal (ret _) _ wa wa _ eq_refl). cbv beta iota.
  unfold handleInvocationError, report_of, send, bind, ret, request, discard.
  cbv beta iota zeta. by rewrite Href.
Qed.

Lemma cycle_waits (w wa : World) (event : unknown)
    (context : IAWSLambdaContext) :
  getNextInvocation env w = (Normal (event, context), wa) ->
  handler event context = NeverSettles ->
  cycle env handler w = (Suspended, wa).
Proof.
  intros Hpoll Hcall.
  rewrite (cycle_polled _ _ _ _ Hpoll). unfold invoke. by rewrite Hcall.
Qed.

(** A pass only adds to the requests issued, never ends the process by
    itself, and, when it completes, has started with the request to
    [/next] and taken a settlement. *)
Lemma cycle_shape (w w1 : World) (c : Completion unit) :
  cycle env handler w = (c, w1) ->
  (exists more, issued w1 = issued w ++ more) /\
  c <> Exited /\ c <> OutOfFuel /\
  exitCode w1 = exitCode w /\ stderr w1 = stderr w /\
  (c = Normal tt -> (length (controlPlane w1) < length (controlPlane w))%nat).
Proof.
  intros H.
  destruct (getNextInvocation env w) as [c0 wa] eqn:Hnext.
  apply getNextInvocation_frame in Hnext as Hframe.
  destruct Hframe as (Hiss & Hplane & Herr & Hexit & _).
  assert (exists more, issued wa = issued w ++ more) as [polled Hpolled].
  { destruct Hiss as [-> | ->]; [exists []; by rewrite app_nil_r|by eexists]. }
  apply getNextInvocation_completion in Hnext as Hc0.
  destruct c0 as [[event context]| | | |]; try tauto.
  - apply getNextInvocation_normal in Hnext as Hres.
    destruct Hres as (res & Hhead & _).
    assert (length (tail (controlPlane wa)) < length (controlPlane w))%nat
      as Hlen.
    { rewrite Hplane. destruct (controlPlane w) as [|s [|s' rest]];
        simpl in *; try discriminate; lia. }
    destruct (handler event context) as [result|[]|e| |[failure|text]|]
      eqn:Hcall.
    + rewrite (cycle_returns _ _ _ _ _ Hnext Hcall) in H. simplify_eq.
      simpl. rewrite Hpolled, <- app_assoc.
      split; [by eexists|].
      by destruct (settle (head (controlPlane wa))).
    + rewrite (cycle_returns_unwritable _ _ _ _ Hnext Hcall) in H.
      simplify_eq. split; [by eexists|done].
    + rewrite (cycle_returns_falsy _ _ _ _ Hnext Hcall) in H. simplify_eq.
      simpl. rewrite Hpolled, <- app_assoc.
      split; [by eexists|].
      by destruct (settle (head (controlPlane wa))).
    + rewrite (cycle_throws _ _ _ _ _ Hnext Hcall) in H. simplify_eq.
      destruct (settle (head (controlPlane wa))); simpl;
        rewrite Hpolled, <- app_assoc; (split; [by eexists|done]).
    + rewrite (cycle_throws_nullish _ _ _ _ Hnext Hcall) in H.
      simplify_eq. split; [by eexists|done].
    + rewrite (cycle_throws_unreportable _ _ _ _ _ Hnext Hcall) in H.
      simplify_eq. split; [by eexists|done].
    + rewrite (cycle_throws_other _ _ _ _ _ Hnext Hcall) in H. simplify_eq.
      destruct (settle (head (controlPlane wa))); simpl;
        rewrite Hpolled, <- app_assoc; (split; [by eexists|done]).
    + rewrite (cycle_waits _ _ _ _ Hnext Hcall) in H.
      simplify_eq. split; [by eexists|done].
  - unfold cycle, bind in H. rewrite Hnext in H. simplify_eq.
    split; [by eexists|done].
  - unfold cycle, bind in H. rewrite Hnext in H. simplify_eq.
    split; [by eexists|done].
Qed.

(** A pass in a run whose requests the host takes starts with the request
    to [/next]. *)
Lemma cycle_polls_first (w w1 : World) (c : Completion unit) :
  refusal w = None ->
  cycle env handler w = (c, w1) ->
  exists more, issued w1 = issued w ++ next_request env :: more.
Proof.
  intros Href H.
  destruct (getNextInvocation env w) as [c0 wa] eqn:Hnext.
  assert (issued wa = issued w ++ [next_request env]) as Hiss.
  { destruct (getNextInvocation_cases w)
      as [(e & He & _)|[(_ & _ & H')|[(_ & e & H')
         |(res & ev & ctx & _ & _ & _ & _ & _ & H')]]];
      [by rewrite He in Href|..];
      rewrite H' in Hnext; by injection Hnext as <- <-. }
  destruct c0 as [[event context]| | | |].
  - destruct (handler event context) as [result|[]|e| |[failure|text]|]
      eqn:Hcall.
    + rewrite (cycle_returns _ _ _ _ _ Hnext Hcall) in H. simplify_eq.
      simpl. rewrite Hiss, <- app_assoc. by eexists.
    + rewrite (cycle_returns_unwritable _ _ _ _ Hnext Hcall) in H.
      simplify_eq. rewrite Hiss. by eexists.
    + rewrite (cycle_returns_falsy _ _ _ _ Hnext Hcall) in H. simplify_eq.
      simpl. rewrite Hiss, <- app_assoc. by eexists.
    + rewrite (cycle_throws _ _ _ _ _ Hnext Hcall) in H. simplify_eq.
      destruct (settle (head (controlPlane wa))); simpl;
        rewrite Hiss, <- app_assoc; by eexists.
    + rewrite (cycle_throws_nullish _ _ _ _ Hnext Hcall) in H.
      simplify_eq. rewrite Hiss. by eexists.
    + rewrite (cycle_throws_unreportable _ _ _ _ _ Hnext Hcall) in H.
      simplify_eq. rewrite Hiss. by eexists.
    + rewrite (cycle_throws_other _ _ _ _ _ Hnext Hcall) in H. simplify_eq.
      destruct (settle (head (controlPlane wa))); simpl;
        rewrite Hiss, <- app_assoc; by eexists.
    + rewrite (cycle_waits _ _ _ _ Hnext Hcall) in H.
      simplify_eq. rewrite Hiss. by eexists.
  - unfold cycle, bind in H. rewrite Hnext in H. simplify_eq.
    rewrite Hiss. by eexists.
  - unfold cycle, bind in H. rewrite Hnext in H. simplify_eq.
    rewrite Hiss. by eexists.
  - unfold cycle, bind in H. rewrite Hnext in H. simplify_eq.
    rewrite Hiss. by eexists.
  - unfold cycle, bind in H. rewrite Hnext in H. simplify_eq.
    rewrite Hiss. by eexists.
Qed.

End Cycle.

(** ** The loop *)

Section Loop.

Variable handler : Handler.

Lemma loop_step (fuel : nat) (w w1 : World) :
  cycle env handler w = (Normal tt, w1) ->
  loop (S fuel) (cycle env handler) w = loop fuel (cycle env handler) w1.
Proof. intros H. simpl. unfold bind. by rewrite H. Qed.

Lemma loop_stops (fuel : nat) (w w1 : World) (c : Completion unit) :
  cycle env handler w = (c, w1) -> c <> Normal tt ->
  loop (S fuel) (cycle env handler) w = (c, w1).
Proof.
  intros H Hc. simpl. unfold bind. rewrite H.
  destruct c as [[]| | | |]; done.
Qed.

(** The loop only adds to the requests issued, and touches neither the exit
    status nor the error output. *)
Lemma loop_frame (fuel : nat) (w : World) :
  (exists more,
     issued (loop fuel (cycle env handler) w).2 = issued w ++ more) /\
  exitCode (loop fuel (cycle env handler) w).2 = exitCode w /\
  stderr (loop fuel (cycle env handler) w).2 = stderr w.
Proof.
  revert w. induction fuel as [|fuel IH]; intros w; simpl.
  - split; [exists []; by rewrite app_nil_r|done].
  - unfold bind.
    destruct (cycle env handler w) as [c w1] eqn:Hcycle.
    apply cycle_shape in Hcycle
      as ([more Hmore] & _ & _ & Hexit & Herr & _).
    destruct c as [[]| | | |]; simpl;
      try (split; [by eexists|done]).
    destruct (IH w1) as ([more' Hmore'] & Hexit' & Herr').
    rewrite Hmore', Hexit', Herr', Hmore, <- app_assoc.
    split; [by eexists|done].
Qed.

(** A pass that starts begins with the request to [/next], in a run whose
    requests the host takes. *)
Lemma loop_polls_first (fuel : nat) (w : World) :
  refusal w = None ->
  exists more,
    issued (loop (S fuel) (cycle env handler) w).2
    = issued w ++ next_request env :: more.
Proof.
  intros Href. simpl. unfold bind.
  destruct (cycle env handler w) as [c w1] eqn:Hcycle.
  apply (cycle_polls_first _ _ _ _ Href) in Hcycle as [more Hmore].
  destruct c as [[]| | | |]; simpl; try by eexists.
  destruct (loop_frame fuel w1) as ([more' Hmore'] & _).
  rewrite Hmore', Hmore, <- app_assoc. by eexists.
Qed.

(** With more passes allowed than settlements left, the loop ends by a
    throw or suspended at an [await]: the bound is not reached. *)
Lemma loop_completes (fuel : nat) (w : World) :
  (length (controlPlane w) < fuel)%nat ->
  (loop fuel (cycle env handler) w).1 = Suspended \/
  exists e, (loop fuel (cycle env handler) w).1 = Throw e.
Proof.
  revert w. induction fuel as [|fuel IH]; intros w Hlen; [lia|].
  simpl. unfold bind.
  destruct (cycle env handler w) as [c w1] eqn:Hcycle.
  apply cycle_shape in Hcycle as (_ & Hexited & Hfuel & _ & _ & Htakes).
  destruct c as [[]| | | |]; simpl; try done.
  - apply IH. specialize (Htakes eq_refl). lia.
  - right. by eexists.
  - by left.
Qed.

Lemma while_true_completes (w : World) :
  (while_true (cycle env handler) w).1 = Suspended \/
  exists e, (while_true (cycle env handler) w).1 = Throw e.
Proof. unfold while_true. apply loop_completes. lia. Qed.

End Loop.

(** ** The runtime *)

Lemma getLambdaHandler_completion (root handler : string) (w w' : World)
    (c : Completion Handler) :
  getLambdaHandler root handler w = (c, w') ->
  (exists h, c = Normal h) \/ (exists e, c = Throw e).
Proof.
  unfold getLambdaHandler, bind, import, throw, ret.
  repeat case_match; intros; simplify_eq; eauto.
Qed.

(** A failed resolution: the report is issued, unless the host refuses it,
    its promise is dropped, and the process ends in the same turn. *)
Lemma startRuntime_init_fails (w w0 : World) (e : Js.Error) :
  getLambdaHandler (LAMBDA_TASK_ROOT env) (_HANDLER env) w = (Throw e, w0) ->
  startRuntime env w
  = (Exited,
     with_exit 1
       match refusal w with
       | Some refused =>
           with_unhandled (Rejected refused : Promise IRequestResult)
             (with_refusal w)
       | None =>
           with_unhandled (settle (head (controlPlane w)))
             (with_queued (init_error_request env e) w)
       end).
Proof.
  intros H. apply getLambdaHandler_world in H as Hw. subst w0.
  unfold startRuntime, bind, attempt. rewrite H.
  unfold handleInitError, send, request, discard, process_exit. cbv zeta.
  by destruct (refusal w).
Qed.

Lemma startRuntime_resolved (w w0 : World) (handler : Handler) :
  getLambdaHandler (LAMBDA_TASK_ROOT env) (_HANDLER env) w
  = (Normal handler, w0) ->
  startRuntime env w
  = match while_true (cycle env handler) w with
    | (Throw e, w') => (Exited, with_exit 1 (with_line (Js.message e) w'))
    | (Normal _, w') => (Normal tt, w')
    | (Suspended, w') => (Suspended, w')
    | (Exited, w') => (Exited, w')
    | (OutOfFuel, w') => (OutOfFuel, w')
    end.
Proof.
  intros H. apply getLambdaHandler_world in H as Hw. subst w0.
  unfold startRuntime, bind, attempt. rewrite H.
  by destruct (while_true (cycle env handler) w) as [[[]| | | |] w'].
Qed.

(** The runtime always reaches the end of what the world lets it do: it has
    ended the process with status 1, or it waits at an [await] with the
    exit status as it was. *)
Lemma startRuntime_completes (w : World) :
  ((startRuntime env w).1 = Exited
   /\ exitCode (startRuntime env w).2 = Some 1) \/
  ((startRuntime env w).1 = Suspended
   /\ exitCode (startRuntime env w).2 = exitCode w).
Proof.
  destruct (getLambdaHandler (LAMBDA_TASK_ROOT env) (_HANDLER env) w)
    as [c w0] eqn:Hload.
  destruct (getLambdaHandler_completion _ _ _ _ _ Hload)
    as [[handler ->]|[e ->]].
  - rewrite (startRuntime_resolved _ _ _ Hload).
    pose proof (while_true_completes handler w) as Hloop.
    pose proof (loop_frame handler (S (length (controlPlane w))) w)
      as (_ & Hexit & _).
    fold (while_true (cycle env handler) w) in Hexit.
    destruct (while_true (cycle env handler) w) as [c w'].
    simpl in *. destruct Hloop as [->|[e ->]]; [by right|by left].
  - rewrite (startRuntime_init_fails _ _ _ Hload). by left.
Qed.

(** ** The endpoints *)

Lemma last_char_app (front back : string) :
  back <> "" -> last_char (front +:+ back) = last_char back.
Proof.
  intros Hback. induction front as [|c front IH]; [done|].
  simpl. rewrite <- IH.
  destruct (front +:+ back) eqn:Happ; [|done].
  destruct front; simpl in *; [done|discriminate].
Qed.

Lemma app_not_empty (front back : string) :
  back <> "" -> front +:+ back <> "".
Proof. intros H. destruct front; [done|discriminate]. Qed.


Local Ltac last_char_of_url :=
  repeat (rewrite last_char_app; [|repeat apply app_not_empty; done]);
  reflexivity.


Lemma next_request_last_char :
  last_char (url (next_request env)) = Some "t"%char.
Proof. unfold next_request, getNextInvocationUrl. cbn [url]. last_char_of_url. Qed.





Lemma init_error_request_not_next (e : Js.Error) :
  url (init_error_request env e) <> url (next_request env).
Proof.
  intros H. apply (f_equal last_char) in H.
  rewrite next_request_last_char in H.
  unfold init_error_request, getInitErrorUrl in H. cbn [url] in H.
  revert H. by repeat (rewrite last_char_app; [|repeat apply app_not_empty; done]).
Qed.

(** The payload of a request and the body on the wire are the same text. *)
Lemma wire_body_text (u : string) (o : RequestOptions) (text : string) :
  wire_body (mkRequest u o (payload_written (Some text))) = text.
Proof.
  unfold wire_body, payload_written. simpl.
  destruct (Js.truthy text) eqn:H; [done|].
  destruct text; [done|discriminate].
Qed.

(** ** Initialization *)

(** Requests that are issued and stay undelivered add nothing to what the
    control plane has received. *)
Lemma delivered_queued (w w' : World) (made : list ClientRequest) :
  issued w' = issued w ++ made ->
  undelivered w' = undelivered w ++ made ->
  delivered w' = delivered w.
Proof.
  intros Hissued Hundelivered. unfold delivered.
  rewrite Hissued, Hundelivered, !length_app.
  replace (length (issued w) + length made
           - (length (undelivered w) + length made))%nat
    with (length (issued w) - length (undelivered w))%nat by lia.
  apply take_app_le. lia.
Qed.

(** C4, what the code does. When the resolution of the handler throws, the
    runtime calls [handleInitError] and ends the process with status 1 in
    the same turn, without waiting for the promise of the report. The
    report, the POST of the normalized failure to
    [<base>//2018-06-01/runtime/invocation/init/error], is the one request
    issued (none is when the host refuses the URL), and it is still
    undelivered when the process ends: the control plane has received
    nothing more than before. No request to [/next] is issued and nothing
    is written to the error output. *)
Theorem C4_init_report_is_never_delivered :
  forall (w w0 : World) (e : Js.Error),
    getLambdaHandler (LAMBDA_TASK_ROOT env) (_HANDLER env) w = (Throw e, w0) ->
    exists (w' : World) (made : list ClientRequest),
      startRuntime env w = (Exited, w') /\
      exitCode w' = Some 1 /\
      issued w' = issued w ++ made /\
      undelivered w' = undelivered w ++ made /\
      delivered w' = delivered w /\
      (made = [] \/ made = [init_error_request env e]) /\
      (refusal w = None -> made = [init_error_request env e]) /\
      url (init_error_request env e)
      = Js.interpolate (AWS_LAMBDA_RUNTIME_API env) +:+ "/" +:+ "/2018-06-01"
        +:+ "/runtime/invocation/init/error" /\
      method (options (init_error_request env e)) = Some "POST" /\
      requestHeaders (options (init_error_request env e))
      = Some (<["Content-Type" := "application/json"]> ∅) /\
      wire_body (init_error_request env e)
      = JSON_stringify
          {| errorType := Js.name e;
             errorMessage := Js.message e;
             stackTrace := Js.split newline (Js.or_empty (Js.stack e)) |} /\
      url (next_request env)
      = Js.interpolate (AWS_LAMBDA_RUNTIME_API env) +:+ "/" +:+ "/2018-06-01"
        +:+ "/runtime/invocation/next" /\
      url (init_error_request env e) <> url (next_request env) /\
      stderr w' = stderr w.
Proof.
  intros w w0 e H. rewrite (startRuntime_init_fails _ _ _ H).
  assert (exists made : list ClientRequest,
            (made = [] \/ made = [init_error_request env e]) /\
            (refusal w = None -> made = [init_error_request env e]) /\
            issued
              (with_exit 1
                 match refusal w with
                 | Some refused =>
                     with_unhandled (Rejected refused : Promise IRequestResult)
                       (with_refusal w)
                 | None =>
                     with_unhandled (settle (head (controlPlane w)))
                       (with_queued (init_error_request env e) w)
                 end) = issued w ++ made /\
            undelivered
              (with_exit 1
                 match refusal w with
                 | Some refused =>
                     with_unhandled (Rejected refused : Promise IRequestResult)
                       (with_refusal w)
                 | None =>
                     with_unhandled (settle (head (controlPlane w)))
                       (with_queued (init_error_request env e) w)
                 end) = undelivered w ++ made)
    as (made & Hmade & Hissued_made & Hissued & Hundelivered).
  { destruct (refusal w) as [refused|].
    - exists []. simpl. rewrite !app_nil_r. by repeat split; [left|..].
    - exists [init_error_request env e].
      split; [by right|]. split; [done|].
      by destruct (settle (head (controlPlane w))). }
  eexists _, made. split; [reflexivity|].
  split; [done|]. split; [exact Hissued|]. split; [exact Hundelivered|].
  split; [exact (delivered_queued _ _ _ Hissued Hundelivered)|].
  split; [exact Hmade|]. split; [exact Hissued_made|].
  split; [done|]. split; [done|]. split; [done|].
  split; [apply wire_body_text|]. split; [done|].
  split; [apply init_error_request_not_next|].
  destruct (refusal w); [done|].
  by destruct (settle (head (controlPlane w))).
Qed.

(** ** The context *)

(** C7. The remaining time is computed at each call from the reading of the
    clock: for a deadline header that holds the integer [deadline], a call
    at the time [now] returns [deadline - now]; of two calls the later one
    returns no more than the earlier one, and a different value when the
    clock has moved; past the deadline the value is negative, with no
    clamping at zero. *)
Theorem C7_remaining_time_reads_the_clock :
  forall (w wa : World) (event : unknown) (context : IAWSLambdaContext)
         (res : IncomingMessage) (deadline : Z),
    getNextInvocation env w = (Normal (event, context), wa) ->
    head (controlPlane w) = Some (Answers res) ->
    unary_plus (res_headers res !! "lambda-runtime-deadline-ms")
    = Js.Num deadline ->
    (forall now : Z,
       getRemainingTimeInMillis context now = Js.Num (deadline - now)) /\
    (forall t1 t2 : Z, t1 <= t2 ->
       Js.leb (getRemainingTimeInMillis context t2)
              (getRemainingTimeInMillis context t1) = true) /\
    (forall t1 t2 : Z, t1 < t2 ->
       getRemainingTimeInMillis context t1
       <> getRemainingTimeInMillis context t2) /\
    (forall now : Z, deadline < now ->
       Js.ltb (getRemainingTimeInMillis context now) (Js.Num 0) = true).
Proof.
  intros w wa event context res deadline Hpoll Hhead Hdeadline.
  apply getNextInvocation_normal in Hpoll
    as (res' & Hhead' & _ & _ & _ & Htime & _).
  rewrite Hhead in Hhead'. injection Hhead' as <-.
  rewrite Htime. simpl. rewrite Hdeadline. simpl.
  split; [done|]. split; [|split].
  - intros t1 t2 Ht. apply Z.leb_le. lia.
  - intros t1 t2 Ht Heq. injection Heq. lia.
  - intros now Hnow. apply Z.ltb_lt. lia.
Qed.

(** C8, what the code does. The trace slot is assigned at every poll that
    completes, and the value assigned is never the trace id: the header is
    looked up under the name [Lambda-Runtime-Trace-Id], and the header
    object of the host holds lower-cased names only, so the lookup is
    [undefined] and the slot holds the text [undefined]. *)
Theorem C8_trace_slot_holds_undefined :
  forall (w wa : World) (event : unknown) (context : IAWSLambdaContext),
    getNextInvocation env w = (Normal (event, context), wa) ->
    _X_AMZN_TRACE_ID wa = Some "undefined".
Proof.
  intros w wa event context Hpoll.
  apply getNextInvocation_normal in Hpoll as (res & _ & _ & _ & _ & _ & ->).
  simpl. by rewrite res_headers_trace_id.
Qed.

(** ** Failures *)


(** A failure that escapes the first pass of the loop is logged and ends
    the process with status 1. *)
Lemma startRuntime_fatal (w w0 w1 : World) (handler : Handler)
    (e : Js.Error) :
  getLambdaHandler (LAMBDA_TASK_ROOT env) (_HANDLER env) w
  = (Normal handler, w0) ->
  cycle env handler w = (Throw e, w1) ->
  startRuntime env w = (Exited, with_exit 1 (with_line (Js.message e) w1)).
Proof.
  intros Hload Hcycle. rewrite (startRuntime_resolved _ _ _ Hload).
  unfold while_true. by rewrite (loop_stops _ _ _ _ _ Hcycle).
Qed.

(** A poll that the transport fails is fatal. *)
Lemma poll_failure_is_fatal (w w0 : World) (handler : Handler)
    (failure : Js.Error) :
  getLambdaHandler (LAMBDA_TASK_ROOT env) (_HANDLER env) w
  = (Normal handler, w0) ->
  head (controlPlane w) = Some (Fails failure) ->
  startRuntime env w
  = (Exited,
     with_exit 1
       (with_line (Js.message failure) (with_request (next_request env) w))).
Proof.
  intros Hload Hhead. apply (startRuntime_fatal _ _ _ _ _ Hload).
  unfold cycle. apply bind_throw. apply poll_failed; [|by rewrite Hhead].
  apply refusal_head. intros e. by rewrite Hhead.
Qed.

(** An event that does not decode is fatal. *)
Lemma decode_failure_is_fatal (w w0 : World) (handler : Handler)
    (res : IncomingMessage) (err : Js.Error) :
  getLambdaHandler (LAMBDA_TASK_ROOT env) (_HANDLER env) w
  = (Normal handler, w0) ->
  head (controlPlane w) = Some (Answers res) ->
  JSON_parse (body (resolved res)) = inl err ->
  startRuntime env w
  = (Exited,
     with_exit 1
       (with_line (Js.message err) (with_request (next_request env) w))).
Proof.
  intros Hload Hhead Hbody. apply (startRuntime_fatal _ _ _ _ _ Hload).
  unfold cycle. apply bind_throw. rewrite (poll_answered _ _ Hhead).
  apply bind_throw. unfold parse. by rewrite Hbody.
Qed.

(** A response that the transport fails to post is fatal. *)
Lemma response_failure_is_fatal (w w0 wa : World) (handler : Handler)
    (event : unknown) (context : IAWSLambdaContext)
    (result : option string) (failure : Js.Error) :
  getLambdaHandler (LAMBDA_TASK_ROOT env) (_HANDLER env) w
  = (Normal handler, w0) ->
  getNextInvocation env w = (Normal (event, context), wa) ->
  handler event context = Returns result ->
  head (controlPlane wa) = Some (Fails failure) ->
  startRuntime env w
  = (Exited,
     with_exit 1
       (with_line (Js.message failure)
          (with_request (response_request env (awsRequestId context) result)
                        wa))).
Proof.
  intros Hload Hpoll Hcall Hhead. apply (startRuntime_fatal _ _ _ _ _ Hload).
  rewrite (cycle_returns _ _ _ _ _ _ Hpoll Hcall). by rewrite Hhead.
Qed.

(** After a pass whose handler throws an [Error] object, the loop goes on
    with the next poll. *)
Lemma loop_after_throw (handler : Handler) (w wa : World) (event : unknown)
    (context : IAWSLambdaContext) (e : Js.Error) (fuel : nat) :
  getNextInvocation env w = (Normal (event, context), wa) ->
  handler event context = Throws e ->
  exists more,
    issued (loop (S (S fuel)) (cycle env handler) w).2
    = issued w ++ [next_request env;
                   error_request env (awsRequestId context) e;
                   next_request env] ++ more.
Proof.
  intros Hpoll Hcall.
  rewrite (loop_step _ _ _ _ (cycle_throws _ _ _ _ _ _ Hpoll Hcall)).
  pose proof (getNextInvocation_issued _ _ _ Hpoll) as (Hiss & _).
  destruct (loop_polls_first handler fuel
              (with_unhandled (settle (head (controlPlane wa)))
                 (with_queued (error_request env (awsRequestId context) e)
                              wa))) as [more Hmore].
  { apply refusal_issued.
    destruct (settle (head (controlPlane wa))); simpl;
      by destruct (issued wa). }
  exists more. rewrite Hmore.
  destruct (settle (head (controlPlane wa))); simpl;
    by rewrite Hiss, <- !app_assoc.
Qed.



(** C5, what the code does. When the handler throws and the transport fails
    the POST of the error report, the pass completes all the same: the
    promise of the report is not awaited, its rejection reaches neither
    [catch], nothing is logged, the exit status stays as it was, and the
    loop goes on with the next poll. *)
Theorem C5_failed_error_report_is_not_fatal :
  forall (handler : Handler) (w wa : World) (event : unknown)
         (context : IAWSLambdaContext) (e failure : Js.Error),
    getNextInvocation env w = (Normal (event, context), wa) ->
    handler event context = Throws e ->
    head (controlPlane wa) = Some (Fails failure) ->
    exists w1 : World,
      cycle env handler w = (Normal tt, w1) /\
      exitCode w1 = exitCode w /\
      stderr w1 = stderr w /\
      unhandledRejections w1 = unhandledRejections w ++ [failure] /\
      (forall fuel : nat,
         loop (S (S fuel)) (cycle env handler) w
         = loop (S fuel) (cycle env handler) w1) /\
      (forall fuel : nat,
         exists more,
           issued (loop (S (S fuel)) (cycle env handler) w).2
           = issued w ++ [next_request env;
                          error_request env (awsRequestId context) e;
                          next_request env] ++ more).
Proof.
  intros handler w wa event context e failure Hpoll Hcall Hfails.
  pose proof (cycle_throws _ _ _ _ _ _ Hpoll Hcall) as Hcycle.
  pose proof (getNextInvocation_issued _ _ _ Hpoll)
    as (Hiss & Hplane & Herr & Hexit & Hunhandled & _).
  eexists. split; [exact Hcycle|].
  split; [by rewrite Hfails|]. split; [by rewrite Hfails|].
  split; [rewrite Hfails; simpl; by rewrite Hunhandled|].
  split; [intros fuel; by apply loop_step|].
  intros fuel; by eapply loop_after_throw.
Qed.

(** ** The request id *)



(** ** Three passes *)


End Properties.



(** ** The properties on the example world

    The function [index.handler] of the example runs against a control
    plane that hands out invocations with the request ids [r1], [r2] and
    [r3]. *)

Section OnExample.

Local Existing Instance Example.host.

Lemma example_poll (requestId event : string) (w : World) :
  head (controlPlane w) = Some (Example.next requestId event) ->
  Js.truthy event = true ->
  getNextInvocation Example.env w
  = (Normal (event,
             base_context Example.env
               (resolved (Example.invocation requestId event))),
     with_trace_id "undefined" (with_request (next_request Example.env) w)).
Proof.
  intros Hhead Hevent.
  apply (getNextInvocation_answers (host := Example.host)).
  - exact Hhead.
  - cbn. by rewrite Hevent.
  - vm_compute. reflexivity.
  - vm_compute. reflexivity.
Qed.


Lemma example_boom (context : IAWSLambdaContext) :
  Example.handler "boom" context = Throws Example.boom.
Proof. reflexivity. Qed.


(** C4 on the example: the module has no export [missing]. The report is
    issued and never sent. *)
Lemma C4_example :
  exists w' : World,
    startRuntime Example.env_missing (Example.world [Example.accepted])
    = (Exited, w') /\
    exitCode w' = Some 1 /\
    issued w'
    = [init_error_request Example.env_missing
         (new_Error "Handler function not found!")] /\
    undelivered w'
    = [init_error_request Example.env_missing
         (new_Error "Handler function not found!")] /\
    delivered w' = [].
Proof.
  assert (getLambdaHandler (LAMBDA_TASK_ROOT Example.env_missing)
            (_HANDLER Example.env_missing)
            (Example.world [Example.accepted])
          = (Throw (new_Error "Handler function not found!"),
             Example.world [Example.accepted])) as Hload
    by (vm_compute; reflexivity).
  destruct (C4_init_report_is_never_delivered Example.env_missing _ _ _ Hload)
    as (w' & made & Hrun & Hexit & Hissued & Hundelivered & Hdelivered & _
        & Hmade & _).
  rewrite (Hmade eq_refl) in Hissued, Hundelivered.
  exists w'. split; [exact Hrun|]. split; [exact Hexit|].
  split; [exact Hissued|]. split; [exact Hundelivered|exact Hdelivered].
Defined.

(** C5 on the example: the transport refuses the error report of [r2]. *)
Lemma C5_example :
  exists w1 : World,
    cycle Example.env Example.handler
      (Example.world [Example.next "r2" "boom"; Example.refused])
    = (Normal tt, w1) /\
    exitCode w1 = None /\ stderr w1 = [] /\
    unhandledRejections w1
    = [Js.mkError "Error" "connect ECONNREFUSED" None].
Proof.
  pose proof (example_poll "r2" "boom"
                (Example.world [Example.next "r2" "boom"; Example.refused])
                eq_refl eq_refl) as Hpoll.
  destruct (C5_failed_error_report_is_not_fatal Example.env Example.handler
              _ _ _ _ Example.boom
              (Js.mkError "Error" "connect ECONNREFUSED" None)
              Hpoll (example_boom _) eq_refl)
    as (w1 & Hcycle & Hexit & Herr & Hunhandled & _).
  exists w1. split; [exact Hcycle|]. split; [exact Hexit|].
  split; [exact Herr|exact Hunhandled].
Defined.

(** The whole run on that world: the runtime is left waiting for the next
    invocation, nothing logged and no exit status given. *)
Lemma C5_example_run :
  (startRuntime Example.env
     (Example.world [Example.next "r2" "boom"; Example.refused])).1
  = Suspended /\
  exitCode (startRuntime Example.env
              (Example.world [Example.next "r2" "boom"; Example.refused])).2
  = None /\
  stderr (startRuntime Example.env
            (Example.world [Example.next "r2" "boom"; Example.refused])).2
  = [] /\
  map url
    (issued (startRuntime Example.env
               (Example.world [Example.next "r2" "boom"; Example.refused])).2)
  = ["http://127.0.0.1:9001//2018-06-01/runtime/invocation/next";
     "http://127.0.0.1:9001//2018-06-01/runtime/invocation/r2/error";
     "http://127.0.0.1:9001//2018-06-01/runtime/invocation/next"].
Proof. repeat split; vm_compute; reflexivity. Qed.


(** C7 on the example: one millisecond before and after the deadline. *)
Lemma C7_example :
  getRemainingTimeInMillis
    (base_context Example.env (resolved (Example.invocation "r1" "one")))
    1572566399999 = Js.Num 1 /\
  Js.ltb
    (getRemainingTimeInMillis
       (base_context Example.env (resolved (Example.invocation "r1" "one")))
       1572566400001)
    (Js.Num 0) = true.
Proof.
  pose proof (example_poll "r1" "one"
                (Example.world [Example.next "r1" "one"])
                eq_refl eq_refl) as Hpoll.
  assert (unary_plus
            (res_headers (Example.invocation "r1" "one")
             !! "lambda-runtime-deadline-ms")
          = Js.Num 1572566400000) as Hdeadline
    by (vm_compute; reflexivity).
  destruct (C7_remaining_time_reads_the_clock Example.env _ _ _ _ _ _
              Hpoll eq_refl Hdeadline)
    as (Hvalue & _ & _ & Hpast).
  split; [exact (Hvalue 1572566399999)|].
  apply Hpast. reflexivity.
Defined.

(** C8 on the example: the invocation carries a trace id, found under the
    lower-cased name, and the slot holds [undefined] after the poll. *)
Lemma C8_example :
  res_headers (Example.invocation "r1" "one") !! "lambda-runtime-trace-id"
  = Some "Root=1-5dbb2a00-abc" /\
  exists (event : unknown) (context : IAWSLambdaContext) (wa : World),
    getNextInvocation Example.env (Example.world [Example.next "r1" "one"])
    = (Normal (event, context), wa) /\
    _X_AMZN_TRACE_ID wa = Some "undefined".
Proof.
  split; [vm_compute; reflexivity|].
  pose proof (example_poll "r1" "one"
                (Example.world [Example.next "r1" "one"])
                eq_refl eq_refl) as Hpoll.
  eexists _, _, _. split; [exact Hpoll|].
  exact (C8_trace_slot_holds_undefined Example.env _ _ _ _ Hpoll).
Defined.


End OnExample.

(** ** Handlers that do not return a string or throw an [Error] *)

Section OnAwkward.

Local Existing Instance Awkward.host.



End OnAwkward.

(** * Further properties of the runtime *)

Section Further.

Context {host : Host} (env : ProcessEnv).

(** ** The context *)

(** What an optional header does to the context. *)
Lemma decode_header_normal (data : IRequestResult) (key : string)
    (assign : unknown -> IAWSLambdaContext -> IAWSLambdaContext)
    (context context' : IAWSLambdaContext) (w w' : World) :
  decode_header data key assign context w = (Normal context', w') ->
  w' = w /\
  ((Js.truthy_opt (headers data !! key) = false /\ context' = context) \/
   (exists text value,
      headers data !! key = Some text /\ text <> "" /\
      JSON_parse text = inr value /\ context' = assign value context)).
Proof.
  unfold decode_header, parse, bind, ret, throw.
  destruct (headers data !! key) as [text|] eqn:Hkey; simpl.
  - destruct (Js.truthy text) eqn:Htext.
    + destruct (JSON_parse text) as [e|value] eqn:Hvalue; [done|].
      intros H. simplify_eq. split; [done|]. right.
      exists text, value. by rewrite <- truthy_true.
    + intros H. simplify_eq. split; [done|]. by left.
  - intros H. simplify_eq. split; [done|]. by left.
Qed.

Lemma bind_normal_inv {A B} (m : Run A) (k : A -> Run B) (w w' : World)
    (b : B) :
  bind m k w = (Normal b, w') ->
  exists a w1, m w = (Normal a, w1) /\ k a w1 = (Normal b, w').
Proof.
  unfold bind. destruct (m w) as [[a| | | |] w1]; try done. by exists a, w1.
Qed.

(** X3. The context of an invocation takes the log group, the log stream,
    the function name, the version and the memory limit from the
    environment of the process whatever the answer to the poll holds, and
    the function ARN from its header. The client context and the identity
    are absent when their header is missing or empty, and are the decoded
    header otherwise. *)
Theorem X3_context_fields :
  forall (w wa : World) (event : unknown) (context : IAWSLambdaContext)
         (res : IncomingMessage),
    getNextInvocation env w = (Normal (event, context), wa) ->
    head (controlPlane w) = Some (Answers res) ->
    logGroupName context = AWS_LAMBDA_LOG_GROUP_NAME env /\
    logStreamName context = AWS_LAMBDA_LOG_STREAM_NAME env /\
    functionName context = AWS_LAMBDA_FUNCTION_NAME env /\
    functionVersion context = AWS_LAMBDA_FUNCTION_VERSION env /\
    memoryLimitInMB context = AWS_LAMBDA_FUNCTION_MEMORY_SIZE env /\
    invokedFunctionArn context
    = res_headers res !! "lambda-runtime-invoked-function-arn" /\
    ((Js.truthy_opt (res_headers res !! "lambda-runtime-client-context")
      = false /\ clientContext context = None) \/
     (exists text value,
        res_headers res !! "lambda-runtime-client-context" = Some text /\
        text <> "" /\ JSON_parse text = inr value /\
        clientContext context = Some value)) /\
    ((Js.truthy_opt (res_headers res !! "lambda-runtime-cognito-identity")
      = false /\ identity context = None) \/
     (exists text value,
        res_headers res !! "lambda-runtime-cognito-identity" = Some text /\
        text <> "" /\ JSON_parse text = inr value /\
        identity context = Some value)).
Proof.
  intros w wa event context res Hpoll Hhead.
  rewrite (poll_answered env _ _ Hhead) in Hpoll.
  apply bind_normal_inv in Hpoll as (ev & w1 & _ & Hpoll).
  apply bind_normal_inv in Hpoll as (c1 & w2 & Hclient & Hpoll).
  apply bind_normal_inv in Hpoll as (c2 & w3 & Hidentity & Hpoll).
  apply bind_normal_inv in Hpoll as ([] & w4 & _ & Hpoll).
  unfold ret in Hpoll. injection Hpoll as _ <- _.
  apply decode_header_normal in Hclient as (_ & Hclient).
  apply decode_header_normal in Hidentity as (_ & Hidentity).
  destruct Hclient as [[Hc ->]|(tc & vc & Hc & Htc & Hvc & ->)];
    destruct Hidentity as [[Hi ->]|(ti & vi & Hi & Hti & Hvi & ->)];
    simpl; repeat (split; [done|]); split;
    solve [by left | right; by eexists _, _].
Qed.

(** X4. An invocation whose client-context header holds text that does not
    decode is fatal to the pass before the handler is called: the failure of
    the decoding is thrown out of the pass, the poll is the only request
    issued, nothing is reported for the request id, and the trace slot is
    left as it was. *)
Theorem X4_malformed_client_context_ends_the_pass :
  forall (handler : Handler) (w : World) (res : IncomingMessage)
         (event : unknown) (text : string) (err : Js.Error),
    head (controlPlane w) = Some (Answers res) ->
    JSON_parse (body (resolved res)) = inr event ->
    res_headers res !! "lambda-runtime-client-context" = Some text ->
    text <> "" ->
    JSON_parse text = inl err ->
    cycle env handler w = (Throw err, with_request (next_request env) w) /\
    issued (with_request (next_request env) w)
    = issued w ++ [next_request env] /\
    _X_AMZN_TRACE_ID (with_request (next_request env) w)
    = _X_AMZN_TRACE_ID w.
Proof.
  intros handler w res event text err Hhead Hevent Hheader Htext Herr.
  split; [|done].
  unfold cycle. apply bind_throw. rewrite (poll_answered env _ _ Hhead).
  rewrite (bind_normal _ _ _ (with_request (next_request env) w) event);
    [|unfold parse; by rewrite Hevent].
  apply bind_throw. unfold decode_header.
  change (headers (resolved res)) with (res_headers res). rewrite Hheader.
  simpl. rewrite (proj2 (truthy_true text) Htext).
  apply bind_throw. unfold parse. by rewrite Herr.
Qed.

(** ** One pass *)

Lemma cycle_throw_cases :
  forall (handler : Handler) (w w1 : World) (e : Js.Error),
    cycle env handler w = (Throw e, w1) ->
    getNextInvocation env w = (Throw e, w1) \/
    exists (event : unknown) (context : IAWSLambdaContext) (wa : World),
      getNextInvocation env w = (Normal (event, context), wa) /\
      ((exists result : option string,
          (handler event context = Returns result \/
           (handler event context = ReturnsUnwritable false /\
            result = None)) /\
          settle (head (controlPlane wa)) = Rejected e /\
          w1 = with_request
                 (response_request env (awsRequestId context) result) wa) \/
       (handler event context = ReturnsUnwritable true /\
        e = invalid_chunk /\ w1 = wa) \/
       (handler event context = ThrowsNullish /\
        e = nullish_read /\ w1 = wa) \/
       (handler event context = ThrowsOther (inl e) /\ w1 = wa)).
Proof.
  intros handler w w1 e Hcycle.
  destruct (getNextInvocation env w) as [c wa] eqn:Hpoll.
  destruct c as [[event context]| | | |].
  - right. exists event, context, wa. split; [done|].
    destruct (handler event context) as [result|[]|thrown| |[failure|text]|]
      eqn:Hcall.
    + rewrite (cycle_returns _ _ _ _ _ _ _ Hpoll Hcall) in Hcycle.
      left. exists result. split; [by left|].
      destruct (settle (head (controlPlane wa))); by simplify_eq.
    + rewrite (cycle_returns_unwritable _ _ _ _ _ _ Hpoll Hcall) in Hcycle.
      right. left. by simplify_eq.
    + rewrite (cycle_returns_falsy _ _ _ _ _ _ Hpoll Hcall) in Hcycle.
      left. exists None. split; [by right|].
      destruct (settle (head (controlPlane wa))); by simplify_eq.
    + by rewrite (cycle_throws _ _ _ _ _ _ _ Hpoll Hcall) in Hcycle.
    + rewrite (cycle_throws_nullish _ _ _ _ _ _ Hpoll Hcall) in Hcycle.
      right. right. left. by simplify_eq.
    + rewrite (cycle_throws_unreportable _ _ _ _ _ _ _ Hpoll Hcall)
        in Hcycle.
      right. right. right. by simplify_eq.
    + by rewrite (cycle_throws_other _ _ _ _ _ _ _ Hpoll Hcall) in Hcycle.
    + by rewrite (cycle_waits _ _ _ _ _ _ Hpoll Hcall) in Hcycle.
  - left. unfold cycle in Hcycle.
    rewrite (bind_throw _ _ _ _ _ Hpoll) in Hcycle. by simplify_eq.
  - unfold cycle in Hcycle.
    by rewrite (bind_suspended _ _ _ _ Hpoll) in Hcycle.
  - by destruct (getNextInvocation_completion _ _ _ _ Hpoll).
  - by destruct (getNextInvocation_completion _ _ _ _ Hpoll).
Qed.

(** X5. An [Error] object thrown by the handler never leaves the pass, and
    neither does any other thrown value whose report can be built. When a
    pass throws, the poll threw that failure; or the handler had returned a
    string, [undefined] or another falsy value and the POST of the result
    was failed; or it had returned a truthy value that [req.write] does not
    take, and [req.write] threw; or it had thrown [null], [undefined] or
    another value on which the building of the report threw. *)
Theorem X5_only_the_protocol_fails_a_pass :
  forall (handler : Handler) (w w1 : World) (e : Js.Error),
    cycle env handler w = (Throw e, w1) ->
    getNextInvocation env w = (Throw e, w1) \/
    exists (event : unknown) (context : IAWSLambdaContext) (wa : World),
      getNextInvocation env w = (Normal (event, context), wa) /\
      ((exists result : option string,
          (handler event context = Returns result \/
           (handler event context = ReturnsUnwritable false /\
            result = None)) /\
          settle (head (controlPlane wa)) = Rejected e /\
          w1 = with_request
                 (response_request env (awsRequestId context) result) wa) \/
       (handler event context = ReturnsUnwritable true /\
        e = invalid_chunk /\ w1 = wa) \/
       (handler event context = ThrowsNullish /\
        e = nullish_read /\ w1 = wa) \/
       (handler event context = ThrowsOther (inl e) /\ w1 = wa)).
Proof. exact cycle_throw_cases. Qed.

(** X6. When the answer to the poll has no request-id header, the handler
    is called all the same, and a result that is a string or [undefined] is
    posted to the response endpoint of the id [undefined]. *)
Theorem X6_missing_request_id_posts_to_undefined :
  forall (handler : Handler) (w wa : World) (event : unknown)
         (context : IAWSLambdaContext) (res : IncomingMessage)
         (result : option string),
    getNextInvocation env w = (Normal (event, context), wa) ->
    head (controlPlane w) = Some (Answers res) ->
    res_headers res !! "lambda-runtime-aws-request-id" = None ->
    handler event context = Returns result ->
    exists (c : Completion unit) (w1 : World) (report : ClientRequest),
      cycle env handler w = (c, w1) /\
      issued w1 = issued w ++ [next_request env; report] /\
      url report
      = Js.interpolate (AWS_LAMBDA_RUNTIME_API env) +:+ "/" +:+ API_VERSION
        +:+ "/runtime/invocation/undefined/response" /\
      written report = payload_written result.
Proof.
  intros handler w wa event context res result Hpoll Hhead Hid Hcall.
  pose proof (getNextInvocation_issued _ _ _ _ Hpoll) as (Hiss & _).
  pose proof (getNextInvocation_normal _ _ _ _ _ Hpoll)
    as (res' & Hhead' & _ & Hcontext & _).
  rewrite Hhead in Hhead'. injection Hhead' as <-.
  simpl in Hcontext. rewrite Hid in Hcontext.
  eexists _, _, _. split; [exact (cycle_returns _ _ _ _ _ _ _ Hpoll Hcall)|].
  split; [simpl; by rewrite Hiss, <- app_assoc|].
  by rewrite Hcontext.
Qed.

(** X7. A handler that returns [undefined] or the empty string has its
    response posted with no body written: the payload is written only when
    it is truthy. *)
Theorem X7_empty_result_is_posted_without_body :
  forall (handler : Handler) (w wa : World) (event : unknown)
         (context : IAWSLambdaContext) (result : option string),
    getNextInvocation env w = (Normal (event, context), wa) ->
    handler event context = Returns result ->
    result = None \/ result = Some "" ->
    exists (c : Completion unit) (w1 : World),
      cycle env handler w = (c, w1) /\
      issued w1
      = issued w ++ [next_request env;
                     mkRequest
                       (getInvocationResponseUrl env (awsRequestId context))
                       post_options None].
Proof.
  intros handler w wa event context result Hpoll Hcall Hresult.
  pose proof (getNextInvocation_issued _ _ _ _ Hpoll) as (Hiss & _).
  eexists _, _. split; [exact (cycle_returns _ _ _ _ _ _ _ Hpoll Hcall)|].
  simpl. rewrite Hiss, <- app_assoc.
  by destruct Hresult as [-> | ->].
Qed.

(** ** The poll *)

(** X8. A poll that does not complete (the transport fails it, its event or
    an optional header does not decode, or no answer has come) leaves the
    trace slot and the module table as they were. *)
Theorem X8_failed_poll_keeps_the_trace_slot :
  forall (w w1 : World) (c : Completion (unknown * IAWSLambdaContext)),
    getNextInvocation env w = (c, w1) ->
    (forall invocation, c <> Normal invocation) ->
    _X_AMZN_TRACE_ID w1 = _X_AMZN_TRACE_ID w /\ modules w1 = modules w.
Proof.
  intros w w1 c Hpoll Hc.
  destruct (getNextInvocation_cases env w)
    as [(e & _ & H)|[(_ & _ & H)|[(_ & e & H)
       |(res & ev & ctx & _ & _ & _ & _ & _ & H)]]];
    rewrite H in Hpoll; injection Hpoll as <- <-; [done..|].
  by destruct (Hc (ev, ctx)).
Qed.

(** X9. When the deadline header does not convert to a number, the
    remaining time is [NaN] at every call: it is not below zero, and the
    value of a later call is not below or equal to the value of an earlier
    one, as every comparison with [NaN] is false. *)
Theorem X9_unusable_deadline_gives_NaN :
  forall (w wa : World) (event : unknown) (context : IAWSLambdaContext)
         (res : IncomingMessage),
    getNextInvocation env w = (Normal (event, context), wa) ->
    head (controlPlane w) = Some (Answers res) ->
    unary_plus (res_headers res !! "lambda-runtime-deadline-ms") = Js.NaN ->
    forall now later : Z,
      getRemainingTimeInMillis context now = Js.NaN /\
      Js.leb (getRemainingTimeInMillis context later)
             (getRemainingTimeInMillis context now) = false /\
      Js.ltb (getRemainingTimeInMillis context now) (Js.Num 0) = false.
Proof.
  intros w wa event context res Hpoll Hhead Hdeadline now later.
  apply getNextInvocation_normal in Hpoll
    as (res' & Hhead' & _ & _ & _ & Htime & _).
  rewrite Hhead in Hhead'. injection Hhead' as <-.
  rewrite Htime. simpl. by rewrite Hdeadline.
Qed.

(** ** Runs of passes *)

Section Passes.

Variable handler : Handler.

(** A completed pass: the poll, one report, two settlements taken. *)
Lemma cycle_completed (w w1 : World) :
  cycle env handler w = (Normal tt, w1) ->
  exists report : ClientRequest,
    issued w1 = issued w ++ [next_request env; report] /\
    method (options report) = Some "POST" /\
    (exists requestId,
       url report = getInvocationResponseUrl env requestId \/
       url report = getInvocationErrorUrl env requestId) /\
    controlPlane w1 = drop 2 (controlPlane w).
Proof.
  intros Hcycle.
  destruct (getNextInvocation env w) as [c wa] eqn:Hpoll.
  destruct c as [[event context]| | | |];
    try (unfold cycle, bind in Hcycle; rewrite Hpoll in Hcycle; done).
  pose proof (getNextInvocation_issued _ _ _ _ Hpoll) as (Hiss & Hplane & _).
  assert (tail (controlPlane wa) = drop 2 (controlPlane w)) as Hdrop.
  { rewrite Hplane. by destruct (controlPlane w) as [|s [|s' rest]]. }
  destruct (handler event context) as [result|[]|thrown| |[failure|text]|]
    eqn:Hcall.
  - rewrite (cycle_returns _ _ _ _ _ _ _ Hpoll Hcall) in Hcycle.
    injection Hcycle as _ <-.
    eexists. split; [simpl; by rewrite Hiss, <- app_assoc|].
    split; [done|]. split; [eexists; by left|done].
  - by rewrite (cycle_returns_unwritable _ _ _ _ _ _ Hpoll Hcall) in Hcycle.
  - rewrite (cycle_returns_falsy _ _ _ _ _ _ Hpoll Hcall) in Hcycle.
    injection Hcycle as _ <-.
    eexists. split; [simpl; by rewrite Hiss, <- app_assoc|].
    split; [done|]. split; [eexists; by left|done].
  - rewrite (cycle_throws _ _ _ _ _ _ _ Hpoll Hcall) in Hcycle.
    injection Hcycle as <-.
    exists (error_request env (awsRequestId context) thrown).
    split; [|split; [done|split; [eexists; by right|]]];
      destruct (settle (head (controlPlane wa))); simpl; try done;
      by rewrite Hiss, <- app_assoc.
  - by rewrite (cycle_throws_nullish _ _ _ _ _ _ Hpoll Hcall) in Hcycle.
  - by rewrite (cycle_throws_unreportable _ _ _ _ _ _ _ Hpoll Hcall)
      in Hcycle.
  - rewrite (cycle_throws_other _ _ _ _ _ _ _ Hpoll Hcall) in Hcycle.
    injection Hcycle as <-.
    exists (mkRequest (getInvocationErrorUrl env (awsRequestId context))
              post_options (payload_written (Some text))).
    split; [|split; [done|split; [eexists; by right|]]];
      destruct (settle (head (controlPlane wa))); simpl; try done;
      by rewrite Hiss, <- app_assoc.
  - by rewrite (cycle_waits _ _ _ _ _ _ Hpoll Hcall) in Hcycle.
Qed.

Lemma passes_step (n : nat) (w w1 : World) :
  cycle env handler w = (Normal tt, w1) ->
  passes (S n) (cycle env handler) w = passes n (cycle env handler) w1.
Proof. intros H. simpl. by rewrite (bind_normal _ _ _ _ _ H). Qed.

Lemma passes_first (n : nat) (w w' : World) :
  passes (S n) (cycle env handler) w = (Normal tt, w') ->
  exists w1,
    cycle env handler w = (Normal tt, w1) /\
    passes n (cycle env handler) w1 = (Normal tt, w').
Proof.
  simpl. intros H. apply bind_normal_inv in H as ([] & w1 & H1 & H2).
  by exists w1.
Qed.

(** Completed passes are passes of the loop. *)
Lemma loop_passes (n fuel : nat) (w w' : World) :
  passes n (cycle env handler) w = (Normal tt, w') ->
  loop (n + fuel) (cycle env handler) w = loop fuel (cycle env handler) w'.
Proof.
  revert w. induction n as [|n IH]; intros w H.
  - simpl in H. unfold ret in H. by simplify_eq.
  - apply passes_first in H as (w1 & H1 & H2).
    change (S n + fuel)%nat with (S (n + fuel)).
    rewrite (loop_step _ _ _ _ _ H1). by apply IH.
Qed.

(** Each completed pass takes at least one settlement. *)
Lemma passes_take (n : nat) (w w' : World) :
  passes n (cycle env handler) w = (Normal tt, w') ->
  (n + length (controlPlane w') <= length (controlPlane w))%nat.
Proof.
  revert w. induction n as [|n IH]; intros w H.
  - simpl in H. unfold ret in H. by simplify_eq.
  - apply passes_first in H as (w1 & H1 & H2).
    apply cycle_shape in H1 as (_ & _ & _ & _ & _ & Htakes).
    specialize (Htakes eq_refl). specialize (IH _ H2). lia.
Qed.

Lemma passes_frame (n : nat) (w w' : World) :
  passes n (cycle env handler) w = (Normal tt, w') ->
  exitCode w' = exitCode w /\ stderr w' = stderr w.
Proof.
  revert w. induction n as [|n IH]; intros w H.
  - simpl in H. unfold ret in H. by simplify_eq.
  - apply passes_first in H as (w1 & H1 & H2).
    apply cycle_shape in H1 as (_ & _ & _ & Hexit & Herr & _).
    destruct (IH _ H2) as [Hexit' Herr']. by rewrite Hexit', Herr'.
Qed.

(** X10. After any number of completed passes the requests issued are
    polls and reports in strict alternation: one poll of [/next] and then
    one POST to the response or the error endpoint per pass, nothing else;
    two settlements of the control plane are taken per pass, and the exit
    status and the error output are as they were. *)
Theorem X10_one_report_per_poll :
  forall (n : nat) (w w' : World),
    passes n (cycle env handler) w = (Normal tt, w') ->
    exists reports : list ClientRequest,
      length reports = n /\
      issued w' = issued w ++ polled_reports (next_request env) reports /\
      Forall (fun report =>
                method (options report) = Some "POST" /\
                exists requestId,
                  url report = getInvocationResponseUrl env requestId \/
                  url report = getInvocationErrorUrl env requestId)
             reports /\
      controlPlane w' = drop (2 * n) (controlPlane w) /\
      exitCode w' = exitCode w /\
      stderr w' = stderr w.
Proof.
  induction n as [|n IH]; intros w w' H.
  - simpl in H. unfold ret in H. simplify_eq. exists [].
    simpl. by rewrite app_nil_r.
  - apply passes_first in H as (w1 & H1 & H2).
    pose proof (cycle_shape _ _ _ _ _ H1) as (_ & _ & _ & Hexit & Herr & _).
    destruct (IH _ _ H2)
      as (reports & Hlen & Hissued & Hposts & Hplane & Hexit' & Herr').
    assert (exists report : ClientRequest,
              issued w1 = issued w ++ [next_request env; report] /\
              method (options report) = Some "POST" /\
              (exists requestId,
                 url report = getInvocationResponseUrl env requestId \/
                 url report = getInvocationErrorUrl env requestId) /\
              controlPlane w1 = drop 2 (controlPlane w))
      as (report & Hiss1 & Hpost & Hurl & Hplane1).
    { exact (cycle_completed _ _ H1). }
    exists (report :: reports).
    split; [simpl; by rewrite Hlen|].
    split; [rewrite Hissued, Hiss1, <- app_assoc; done|].
    split; [by constructor|].
    split; [|by rewrite Hexit', Herr'].
    rewrite Hplane, Hplane1, drop_drop. f_equal. lia.
Qed.

(** X11. A failure thrown out of a pass is fatal whatever the number of
    passes completed before it: its message is the one line written to the
    error output, the process ends with status 1, and no request is issued
    after the ones of the failed pass. *)
Theorem X11_thrown_pass_is_fatal_after_any_passes :
  forall (n : nat) (w w0 w1 w2 : World) (e : Js.Error),
    getLambdaHandler (LAMBDA_TASK_ROOT env) (_HANDLER env) w
    = (Normal handler, w0) ->
    passes n (cycle env handler) w = (Normal tt, w1) ->
    cycle env handler w1 = (Throw e, w2) ->
    startRuntime env w = (Exited, with_exit 1 (with_line (Js.message e) w2))
    /\ stderr (startRuntime env w).2 = stderr w ++ [Js.message e]
    /\ exitCode (startRuntime env w).2 = Some 1
    /\ issued (startRuntime env w).2 = issued w2.
Proof.
  intros n w w0 w1 w2 e Hload Hpasses Hthrow.
  assert (startRuntime env w
          = (Exited, with_exit 1 (with_line (Js.message e) w2))) as Hrun.
  { rewrite (startRuntime_resolved _ _ _ _ Hload). unfold while_true.
    pose proof (passes_take _ _ _ Hpasses) as Htake.
    replace (S (length (controlPlane w)))
      with (n + S (length (controlPlane w) - n))%nat by lia.
    rewrite (loop_passes _ _ _ _ Hpasses).
    by rewrite (loop_stops _ _ _ _ _ _ Hthrow). }
  rewrite Hrun. split; [done|]. simpl.
  pose proof (cycle_shape _ _ _ _ _ Hthrow) as (_ & _ & _ & _ & Herr2 & _).
  destruct (passes_frame _ _ _ Hpasses) as [_ Herr1].
  by rewrite Herr2, Herr1.
Qed.

End Passes.

(** ** Status codes *)

Lemma same_world_refl (w : World) : same_world w w.
Proof.
  repeat split; try done.
  induction (controlPlane w) as [|[res|e|e] rest IH]; by constructor.
Qed.

Lemma same_world_refusal (w w' : World) :
  same_world w w' -> refusal w = refusal w'.
Proof.
  intros (_ & _ & Hiss & Hplane & _). unfold refusal. rewrite <- Hiss.
  destruct (issued w); [|done].
  destruct Hplane as [|s s' rest rest' Hs Hrest]; [done|]. simpl.
  destruct s, s'; simpl in Hs; try done. by subst.
Qed.

Lemma same_world_settle (w w' : World) :
  same_world w w' ->
  same_promise (settle (head (controlPlane w)))
               (settle (head (controlPlane w'))).
Proof.
  intros (_ & _ & _ & Hplane & _).
  destruct Hplane as [|s s' rest rest' Hs Hrest]; [done|]. simpl.
  destruct s as [res|e|e], s' as [res'|e'|e']; simpl in Hs; try done.
  destruct Hs as [Hheaders Hchunks]. unfold resolved, res_headers. simpl.
  by rewrite Hheaders, Hchunks.
Qed.

Lemma same_world_queued (req : ClientRequest) (w w' : World) :
  same_world w w' -> same_world (with_queued req w) (with_queued req w').
Proof.
  intros (? & ? & Hiss & Hplane & ? & ? & ? & Hout).
  repeat split; simpl; try done.
  - by rewrite Hiss.
  - destruct Hplane; [constructor|done].
  - by rewrite Hout.
Qed.

Lemma same_world_refused (w w' : World) :
  same_world w w' -> same_world (with_refusal w) (with_refusal w').
Proof.
  intros (? & ? & Hiss & Hplane & ? & ? & ? & Hout).
  repeat split; simpl; try done.
  destruct Hplane; [constructor|done].
Qed.

Lemma same_world_delivery (w w' : World) :
  same_world w w' -> same_world (with_delivery w) (with_delivery w').
Proof. intros (? & ? & ? & ? & ? & ? & ? & ?). by repeat split. Qed.

Lemma same_world_unhandled (p p' : Promise IRequestResult) (w w' : World) :
  same_promise p p' -> same_world w w' ->
  same_world (with_unhandled p w) (with_unhandled p' w').
Proof.
  intros Hp Hw.
  destruct p as [data|e|], p' as [data'|e'|]; simpl in Hp; try done.
  subst e'. destruct Hw as (? & ? & ? & ? & ? & ? & Hun & ?).
  repeat split; simpl; try done. by rewrite Hun.
Qed.

Lemma blind_pure {A} (m : Run A) (c : Completion A) :
  (forall w, m w = (c, w)) -> status_blind m.
Proof. intros H w w' Hw. by rewrite !H. Qed.

Lemma blind_bind {A B} (m : Run A) (k : A -> Run B) :
  status_blind m -> (forall a, status_blind (k a)) -> status_blind (bind m k).
Proof.
  intros Hm Hk w w' Hw. unfold bind.
  destruct (Hm w w' Hw) as [Hc Hw'].
  destruct (m w) as [c1 w1], (m w') as [c2 w2]. simpl in *. subst c2.
  destruct c1; [by apply Hk|done..].
Qed.

Lemma blind_attempt {A} (m : Run A) : status_blind m -> status_blind (attempt m).
Proof.
  intros Hm w w' Hw. unfold attempt.
  destruct (Hm w w' Hw) as [Hc Hw'].
  destruct (m w) as [c1 w1], (m w') as [c2 w2]. simpl in *. subst c2.
  by destruct c1.
Qed.

Lemma blind_update {A} (c : Completion A) (update : World -> World) :
  (forall w w', same_world w w' -> same_world (update w) (update w')) ->
  status_blind (fun w => (c, update w)).
Proof. intros H w w' Hw. split; [done|by apply H]. Qed.

Lemma blind_parse (text : string) : status_blind (parse text).
Proof.
  unfold parse. destruct (JSON_parse text); by eapply blind_pure.
Qed.

Lemma blind_decode_header (data : IRequestResult) (key : string)
    (assign : unknown -> IAWSLambdaContext -> IAWSLambdaContext)
    (context : IAWSLambdaContext) :
  status_blind (decode_header data key assign context).
Proof.
  unfold decode_header. destruct (Js.truthy_opt (headers data !! key)).
  - apply blind_bind; [apply blind_parse|]. intros v. by eapply blind_pure.
  - by eapply blind_pure.
Qed.

(** A request on two such worlds: issued on both or on none, with promises
    that differ in the status code of the answer at most. *)
Lemma blind_request (u : string) (o : RequestOptions) (payload : Payload)
    (w w' : World) :
  same_world w w' ->
  exists (p p' : Promise IRequestResult) (w1 w1' : World),
    request u o payload w = (Normal p, w1) /\
    request u o payload w' = (Normal p', w1') /\
    same_promise p p' /\ same_world w1 w1'.
Proof.
  intros Hw. unfold request. rewrite <- (same_world_refusal _ _ Hw).
  destruct (refusal w) as [e|].
  - eexists _, _, _, _. split; [done|]. split; [done|].
    split; [done|by apply same_world_refused].
  - destruct payload as [text|[]]; eexists _, _, _, _;
      (split; [done|]; split; [done|]);
      solve [ by split
            | split; [by apply same_world_settle|by apply same_world_queued] ].
Qed.

(** A request that is awaited: what follows sees the headers and the body
    of the answer. *)
Lemma blind_awaited {B} (u : string) (o : RequestOptions)
    (payload : Payload) (k : IRequestResult -> Run B) :
  (forall data data' w,
     headers data = headers data' -> body data = body data' ->
     k data w = k data' w) ->
  (forall data, status_blind (k data)) ->
  status_blind (bind (request u o payload)
                  (fun promise => bind (await promise) k)).
Proof.
  intros Hsame Hk w w' Hw.
  destruct (blind_request u o payload w w' Hw)
    as (p & p' & w1 & w1' & H & H' & Hp & Hw1).
  rewrite (bind_normal _ _ _ _ _ H), (bind_normal _ _ _ _ _ H').
  pose proof (same_world_delivery _ _ Hw1) as Hsent.
  destruct p as [data|e|], p' as [data'|e'|]; simpl in Hp; try done.
  - destruct Hp as [Hheaders Hbody].
    rewrite (bind_normal (await (Fulfilled data)) _ w1 _ _ eq_refl).
    rewrite (bind_normal (await (Fulfilled data')) _ w1' _ _ eq_refl).
    rewrite (Hsame data data' _ Hheaders Hbody). by apply Hk.
  - subst e'.
    rewrite (bind_throw (await (Rejected e)) _ w1 _ _ eq_refl).
    by rewrite (bind_throw (await (Rejected e)) _ w1' _ _ eq_refl).
Qed.

(** A request whose promise is dropped. *)
Lemma blind_discarded_then {B} (u : string) (o : RequestOptions)
    (payload : Payload) (k : unit -> Run B) :
  (forall x, status_blind (k x)) ->
  status_blind (bind (request u o payload)
                  (fun promise => bind (discard promise) k)).
Proof.
  intros Hk w w' Hw.
  destruct (blind_request u o payload w w' Hw)
    as (p & p' & w1 & w1' & H & H' & Hp & Hw1).
  rewrite (bind_normal _ _ _ _ _ H), (bind_normal _ _ _ _ _ H').
  rewrite (bind_normal (discard p) _ w1 _ _ eq_refl).
  rewrite (bind_normal (discard p') _ w1' _ _ eq_refl).
  apply Hk. by apply same_world_unhandled.
Qed.

Lemma blind_discarded (u : string) (o : RequestOptions) (payload : Payload) :
  status_blind (bind (request u o payload) (fun promise => discard promise)).
Proof.
  intros w w' Hw.
  destruct (blind_request u o payload w w' Hw)
    as (p & p' & w1 & w1' & H & H' & Hp & Hw1).
  rewrite (bind_normal _ _ _ _ _ H), (bind_normal _ _ _ _ _ H').
  split; [done|]. by apply same_world_unhandled.
Qed.

Lemma blind_getNextInvocation : status_blind (getNextInvocation env).
Proof.
  unfold getNextInvocation, load. apply blind_awaited.
  - intros [s h b] [s' h' b'] w. simpl. intros -> ->. reflexivity.
  - intros data. apply blind_bind; [apply blind_parse|]. intros event.
    apply blind_bind; [apply blind_decode_header|]. intros c1.
    apply blind_bind; [apply blind_decode_header|]. intros c2.
    apply blind_bind; [|intros []; by eapply blind_pure].
    apply blind_update. intros w w' (? & ? & ? & ? & ? & ? & ? & ?).
    by repeat split.
Qed.

Lemma blind_cycle (handler : Handler) : status_blind (cycle env handler).
Proof.
  unfold cycle. apply blind_bind; [apply blind_getNextInvocation|].
  intros [event context].
  apply blind_bind.
  - unfold invoke. destruct (handler event context); by eapply blind_pure.
  - intros [[e| |[failure|text]]|result].
    + intros w w' Hw. exact (blind_discarded _ _ _ w w' Hw).
    + by eapply blind_pure.
    + by eapply blind_pure.
    + intros w w' Hw. exact (blind_discarded _ _ _ w w' Hw).
    + unfold send. apply blind_awaited.
      * done.
      * intros data. by eapply blind_pure.
Qed.

Lemma blind_loop (handler : Handler) (fuel : nat) :
  status_blind (loop fuel (cycle env handler)).
Proof.
  induction fuel as [|fuel IH]; simpl.
  - intros w w' Hw. by split.
  - apply blind_bind; [apply blind_cycle|]. by intros [].
Qed.

Lemma blind_getLambdaHandler (root handler : string) :
  status_blind (getLambdaHandler root handler).
Proof.
  intros w w' Hw. pose proof Hw as (_ & Hmodules & _).
  unfold getLambdaHandler.
  destruct (invalid_handler handler); [done|].
  unfold bind, import, throw, ret. rewrite <- Hmodules.
  destruct (modules w _) as [e|[exports|]]; [done| |done].
  by destruct (exports _).
Qed.

(** X13. The runtime never looks at a status code. Two runs against control
    planes that differ in the status codes of their answers only end the
    same way, with the same requests issued, the same error output, exit
    status, trace slot and unhandled rejections: an answer to the poll is
    taken as an invocation, and an answer to a report as its acceptance,
    whatever status they carry. *)
Theorem X13_status_codes_are_ignored :
  forall w w' : World,
    same_world w w' ->
    (startRuntime env w).1 = (startRuntime env w').1 /\
    issued (startRuntime env w).2 = issued (startRuntime env w').2 /\
    stderr (startRuntime env w).2 = stderr (startRuntime env w').2 /\
    exitCode (startRuntime env w).2 = exitCode (startRuntime env w').2 /\
    _X_AMZN_TRACE_ID (startRuntime env w).2
    = _X_AMZN_TRACE_ID (startRuntime env w').2 /\
    unhandledRejections (startRuntime env w).2
    = unhandledRejections (startRuntime env w').2 /\
    same_world (startRuntime env w).2 (startRuntime env w').2.
Proof.
  assert (status_blind (startRuntime env)) as Hblind.
  { unfold startRuntime. apply blind_bind.
    - apply blind_attempt, blind_getLambdaHandler.
    - intros [e|handler].
      + unfold handleInitError, send. apply blind_discarded_then.
        intros []. apply blind_update.
        intros w w' (? & ? & ? & ? & ? & ? & ? & ?). by repeat split.
      + apply blind_bind.
        * apply blind_attempt. intros w w' Hw. unfold while_true.
          pose proof Hw as (_ & _ & _ & Hplane & _).
          rewrite (Forall2_length _ _ _ Hplane). by apply blind_loop.
        * intros [e|[]]; [|by eapply blind_pure].
          apply blind_bind.
          -- apply blind_update.
             intros w w' (? & ? & ? & ? & Herr & ? & ? & ?).
             repeat split; try done. simpl. by rewrite Herr.
          -- intros []. apply blind_update.
             intros w w' (? & ? & ? & ? & ? & ? & ? & ?). by repeat split. }
  intros w w' Hw. destruct (Hblind w w' Hw) as [Hc Hsame].
  split; [done|]. pose proof Hsame as (? & ? & ? & ? & ? & ? & ? & ?).
  by repeat split.
Qed.

(** ** Valid specifiers *)

Lemma split_app_separator (sep : ascii) (front back : string) :
  Js.occurrences sep front = O ->
  Js.split sep (front +:+ String sep back) = front :: Js.split sep back.
Proof.
  induction front as [|c front IH]; intros Hfront.
  - change (Js.split sep (String sep back) = "" :: Js.split sep back).
    simpl. by rewrite Ascii.eqb_refl.
  - change (Js.split sep (String c (front +:+ String sep back))
            = String c front :: Js.split sep back).
    simpl in Hfront |- *. destruct (Ascii.eqb c sep); [done|].
    by rewrite IH.
Qed.

(** X2. In terms of the text of the specifier: it is valid exactly when
    the text before its first dot is not empty and is followed, after the
    dot, by a non-empty text that runs to the end or to the next dot. What
    follows a second dot is free. A specifier that begins with a dot, as
    [./index.handler] does, is invalid. *)
Theorem X2_valid_specifier_text :
  forall handler : string,
    (invalid_handler handler = false <->
     exists path name : string,
       path <> "" /\ name <> "" /\
       Js.occurrences dot path = O /\ Js.occurrences dot name = O /\
       (handler = path +:+ String dot name \/
        exists more : string,
          handler = path +:+ String dot (name +:+ String dot more))) /\
    invalid_handler (String dot handler) = true.
Proof.
  intros handler. split.
  - rewrite invalid_handler_false. split.
    + intros (path & name & rest & Hsplit & Hpath & Hname).
      pose proof (pieces_without_separator dot handler) as Hpieces.
      pose proof (join_split dot handler) as Hjoin.
      rewrite Hsplit in Hpieces, Hjoin.
      apply Forall_cons in Hpieces as [Hp Hrest].
      apply Forall_cons in Hrest as [Hn _].
      exists path, name. repeat (split; [done|]).
      destruct rest as [|piece rest]; [left|right].
      * by rewrite <- Hjoin.
      * exists (Js.join dot (piece :: rest)). by rewrite <- Hjoin.
    + intros (path & name & Hpath & Hname & Hp & Hn & [->|[more ->]]).
      * rewrite (split_app_separator _ _ _ Hp).
        rewrite (split_without_separator _ _ Hn). by exists path, name, [].
      * rewrite (split_app_separator _ _ _ Hp).
        rewrite (split_app_separator _ _ _ Hn).
        by exists path, name, (Js.split dot more).
  - reflexivity.
Qed.

End Further.

(** ** The further properties on examples *)

Section FurtherOnExample.

Local Existing Instance Example.host.

(** X6 on the example: an answer without a request id. *)
Lemma X6_example :
  exists (c : Completion unit) (w1 : World) (report : ClientRequest),
    cycle Example.env Example.handler
      (Example.world [Answers Awkward.bare; Example.accepted])
    = (c, w1) /\
    url report
    = "http://127.0.0.1:9001//2018-06-01/runtime/invocation/undefined/response".
Proof.
  assert (getNextInvocation Example.env
            (Example.world [Answers Awkward.bare; Example.accepted])
          = (Normal ("one", base_context Example.env (resolved Awkward.bare)),
             with_trace_id "undefined"
               (with_request (next_request Example.env)
                  (Example.world [Answers Awkward.bare; Example.accepted]))))
    as Hpoll.
  { apply (getNextInvocation_answers (host := Example.host));
      vm_compute; reflexivity. }
  assert (res_headers Awkward.bare !! "lambda-runtime-aws-request-id" = None)
    as Hid by (vm_compute; reflexivity).
  destruct (X6_missing_request_id_posts_to_undefined Example.env
              Example.handler _ _ _ _ _ (Some "one") Hpoll eq_refl Hid eq_refl)
    as (c & w1 & report & Hcycle & _ & Hurl & _).
  exists c, w1, report. split; [exact Hcycle|exact Hurl].
Defined.

(** X7 on the example: a handler that returns nothing. *)
Lemma X7_example :
  exists (c : Completion unit) (w1 : World),
    cycle Example.env (fun _ _ => Returns None)
      (Example.world [Example.next "r1" "one"; Example.accepted])
    = (c, w1) /\
    map written (issued w1) = [None; None].
Proof.
  pose proof (example_poll "r1" "one"
                (Example.world [Example.next "r1" "one"; Example.accepted])
                eq_refl eq_refl) as Hpoll.
  destruct (X7_empty_result_is_posted_without_body Example.env
              (fun _ _ => Returns None) _ _ _ _ None Hpoll eq_refl
              (or_introl eq_refl))
    as (c & w1 & Hcycle & Hissued).
  exists c, w1. split; [exact Hcycle|]. by rewrite Hissued.
Defined.

(** X9 on the example: an answer without a deadline. *)
Lemma X9_example :
  getRemainingTimeInMillis
    (base_context Example.env (resolved Awkward.bare)) 0
  = Js.NaN.
Proof.
  assert (getNextInvocation Example.env (Example.world [Answers Awkward.bare])
          = (Normal ("one", base_context Example.env (resolved Awkward.bare)),
             with_trace_id "undefined"
               (with_request (next_request Example.env)
                  (Example.world [Answers Awkward.bare])))) as Hpoll.
  { apply (getNextInvocation_answers (host := Example.host));
      vm_compute; reflexivity. }
  assert (unary_plus (res_headers Awkward.bare
                      !! "lambda-runtime-deadline-ms") = Js.NaN)
    as Hdeadline by (vm_compute; reflexivity).
  exact (proj1 (X9_unusable_deadline_gives_NaN Example.env _ _ _ _ _
                  Hpoll eq_refl Hdeadline 0 0)).
Defined.

(** X10 on the example: three passes, the second with a handler that
    throws. *)
Lemma X10_example :
  exists reports : list ClientRequest,
    length reports = 3%nat /\
    issued
      (passes 3 (cycle Example.env Example.handler)
         (Example.world [Example.next "r1" "one"; Example.accepted;
                         Example.next "r2" "boom"; Example.refused;
                         Example.next "r3" "three"; Example.accepted])).2
    = issued (Example.world [Example.next "r1" "one"; Example.accepted;
                             Example.next "r2" "boom"; Example.refused;
                             Example.next "r3" "three"; Example.accepted])
      ++ polled_reports (next_request Example.env) reports.
Proof.
  assert (passes 3 (cycle Example.env Example.handler)
            (Example.world [Example.next "r1" "one"; Example.accepted;
                            Example.next "r2" "boom"; Example.refused;
                            Example.next "r3" "three"; Example.accepted])
          = (Normal tt,
             (passes 3 (cycle Example.env Example.handler)
                (Example.world [Example.next "r1" "one"; Example.accepted;
                                Example.next "r2" "boom"; Example.refused;
                                Example.next "r3" "three";
                                Example.accepted])).2)) as Hpasses
    by (vm_compute; reflexivity).
  destruct (X10_one_report_per_poll Example.env Example.handler 3 _ _ Hpasses)
    as (reports & Hlength & Hissued & _).
  exists reports. split; [exact Hlength|exact Hissued].
Defined.

(** X11 on the example: one pass completes, then the transport fails the
    poll. *)
Lemma X11_example :
  stderr
    (startRuntime Example.env
       (Example.world [Example.next "r1" "one"; Example.accepted;
                       Example.refused])).2
  = stderr (Example.world [Example.next "r1" "one"; Example.accepted;
                           Example.refused])
    ++ ["connect ECONNREFUSED"].
Proof.
  assert (getLambdaHandler (LAMBDA_TASK_ROOT Example.env)
            (_HANDLER Example.env)
            (Example.world [Example.next "r1" "one"; Example.accepted;
                            Example.refused])
          = (Normal Example.handler,
             Example.world [Example.next "r1" "one"; Example.accepted;
                            Example.refused])) as Hload
    by (vm_compute; reflexivity).
  assert (passes 1 (cycle Example.env Example.handler)
            (Example.world [Example.next "r1" "one"; Example.accepted;
                            Example.refused])
          = (Normal tt,
             (passes 1 (cycle Example.env Example.handler)
                (Example.world [Example.next "r1" "one"; Example.accepted;
                                Example.refused])).2)) as Hpasses
    by (vm_compute; reflexivity).
  assert (cycle Example.env Example.handler
            (passes 1 (cycle Example.env Example.handler)
               (Example.world [Example.next "r1" "one"; Example.accepted;
                               Example.refused])).2
          = (Throw (Js.mkError "Error" "connect ECONNREFUSED" None),
             (cycle Example.env Example.handler
                (passes 1 (cycle Example.env Example.handler)
                   (Example.world [Example.next "r1" "one"; Example.accepted;
                                   Example.refused])).2).2)) as Hthrow
    by (vm_compute; reflexivity).
  exact (proj1 (proj2 (X11_thrown_pass_is_fatal_after_any_passes Example.env
                         Example.handler 1 _ _ _ _ _ Hload Hpasses Hthrow))).
Defined.

(** X13 on the example: the same answers with the status codes 503 and
    404. *)
Lemma X13_example :
  (startRuntime Example.env
     (Example.world [Example.next "r1" "one"; Example.accepted])).1
  = (startRuntime Example.env
       (Example.world [Awkward.unavailable "r1" "one"; Awkward.not_found])).1
  /\
  issued (startRuntime Example.env
            (Example.world [Example.next "r1" "one"; Example.accepted])).2
  = issued (startRuntime Example.env
              (Example.world [Awkward.unavailable "r1" "one";
                              Awkward.not_found])).2.
Proof.
  assert (same_world
            (Example.world [Example.next "r1" "one"; Example.accepted])
            (Example.world [Awkward.unavailable "r1" "one";
                            Awkward.not_found])) as Hsame.
  { repeat split. repeat constructor. }
  destruct (X13_status_codes_are_ignored Example.env _ _ Hsame)
    as (Hcompletion & Hissued & _).
  split; [exact Hcompletion|exact Hissued].
Defined.

End FurtherOnExample.

Section FurtherOnAwkward.

Local Existing Instance Awkward.host.

(** X3 on the example: an invocation with a client context. *)
Lemma X3_example :
  exists (event : unknown) (context : IAWSLambdaContext) (wa : World),
    getNextInvocation Example.env
      (Awkward.world [Answers (Awkward.with_client_context "ctx")])
    = (Normal (event, context), wa) /\
    logGroupName context = "/aws/lambda/fn" /\
    memoryLimitInMB context = "128".
Proof.
  let r := eval vm_compute in
    (getNextInvocation Example.env
       (Awkward.world [Answers (Awkward.with_client_context "ctx")])) in
  lazymatch r with
  | (Normal (?ev, ?ctx), ?wa) =>
      assert (getNextInvocation Example.env
                (Awkward.world [Answers (Awkward.with_client_context "ctx")])
              = (Normal (ev, ctx), wa)) as Hpoll by (vm_compute; reflexivity)
  end.
  destruct (X3_context_fields Example.env _ _ _ _ _ Hpoll eq_refl)
    as (Hgroup & _ & _ & _ & Hmemory & _).
  eexists _, _, _. split; [exact Hpoll|]. split; [exact Hgroup|exact Hmemory].
Defined.

(** X5 on the example: the handler returns an object. *)
Lemma X5_example :
  getNextInvocation Example.env
    (Awkward.running Awkward.structured [Answers Awkward.bare])
  = (Throw invalid_chunk,
     with_trace_id "undefined"
       (with_request (next_request Example.env)
          (Awkward.running Awkward.structured [Answers Awkward.bare]))) \/
  exists (event : unknown) (context : IAWSLambdaContext) (wa : World),
    getNextInvocation Example.env
      (Awkward.running Awkward.structured [Answers Awkward.bare])
    = (Normal (event, context), wa) /\
    ((exists result : option string,
        (Awkward.structured event context = Returns result \/
         (Awkward.structured event context = ReturnsUnwritable false /\
          result = None)) /\
        settle (head (controlPlane wa)) = Rejected invalid_chunk /\
        with_trace_id "undefined"
          (with_request (next_request Example.env)
             (Awkward.running Awkward.structured [Answers Awkward.bare]))
        = with_request
            (response_request Example.env (awsRequestId context) result)
            wa) \/
     (Awkward.structured event context = ReturnsUnwritable true /\
      invalid_chunk = invalid_chunk /\
      with_trace_id "undefined"
        (with_request (next_request Example.env)
           (Awkward.running Awkward.structured [Answers Awkward.bare]))
      = wa) \/
     (Awkward.structured event context = ThrowsNullish /\
      invalid_chunk = nullish_read /\
      with_trace_id "undefined"
        (with_request (next_request Example.env)
           (Awkward.running Awkward.structured [Answers Awkward.bare]))
      = wa) \/
     (Awkward.structured event context = ThrowsOther (inl invalid_chunk) /\
      with_trace_id "undefined"
        (with_request (next_request Example.env)
           (Awkward.running Awkward.structured [Answers Awkward.bare]))
      = wa)).
Proof.
  assert (cycle Example.env Awkward.structured
            (Awkward.running Awkward.structured [Answers Awkward.bare])
          = (Throw invalid_chunk,
             with_trace_id "undefined"
               (with_request (next_request Example.env)
                  (Awkward.running Awkward.structured
                     [Answers Awkward.bare])))) as Hcycle
    by (vm_compute; reflexivity).
  exact (X5_only_the_protocol_fails_a_pass Example.env Awkward.structured
           _ _ _ Hcycle).
Defined.

(** X8 on the example: the transport fails the poll. *)
Lemma X8_example :
  _X_AMZN_TRACE_ID
    (with_request (next_request Example.env)
       (mkWorld (Some "Root=1-old") (fun _ => inl Example.boom) []
                [Example.refused] [] None [] []))
  = Some "Root=1-old".
Proof.
  assert (getNextInvocation Example.env
            (mkWorld (Some "Root=1-old") (fun _ => inl Example.boom) []
                     [Example.refused] [] None [] [])
          = (Throw (Js.mkError "Error" "connect ECONNREFUSED" None),
             with_request (next_request Example.env)
               (mkWorld (Some "Root=1-old") (fun _ => inl Example.boom) []
                        [Example.refused] [] None [] []))) as Hpoll
    by (vm_compute; reflexivity).
  assert (forall invocation : unknown * IAWSLambdaContext,
            Throw (Js.mkError "Error" "connect ECONNREFUSED" None)
            <> Normal invocation) as Hthrown by done.
  exact (proj1 (X8_failed_poll_keeps_the_trace_slot Example.env _ _ _
                  Hpoll Hthrown)).
Defined.

(** X4 on the example: a client context that is not closed. *)
Lemma X4_example :
  cycle Example.env Awkward.silent
    (Awkward.world [Answers (Awkward.with_client_context "{")])
  = (Throw (Js.mkError "SyntaxError" "Unexpected end of JSON input" None),
     with_request (next_request Example.env)
       (Awkward.world [Answers (Awkward.with_client_context "{")])).
Proof.
  assert (res_headers (Awkward.with_client_context "{")
          !! "lambda-runtime-client-context" = Some "{") as Hheader
    by (vm_compute; reflexivity).
  assert ("{" <> "") as Htext by done.
  exact (proj1 (X4_malformed_client_context_ends_the_pass Example.env
                  Awkward.silent
                  (Awkward.world [Answers (Awkward.with_client_context "{")])
                  (Awkward.with_client_context "{") "one" "{"
                  (Js.mkError "SyntaxError" "Unexpected end of JSON input"
                              None)
                  eq_refl eq_refl Hheader Htext eq_refl)).
Defined.

End FurtherOnAwkward.
